(** * Crossbill API client: credential lifecycle and authenticated requests

    A shallow embedding of [src/api.ts] (class [CrossbillAPI]): the credential
    fields, the expiry check, refresh, login, [ensureAuthenticated] and the
    401 recovery of [authenticatedFetch], followed by the properties of the
    session-manager specification that concern them.

    Modelling choices.
    - JavaScript strings are [string]; the empty string is the only falsy one.
    - Epoch-millisecond timestamps and [expires_in] are [Z] (JavaScript
      numbers restricted to integers; NaN and fractions are not modelled).
      [tokenExpiresAt : number | null] is [option Z]; [null] and [0] are the
      falsy values.
    - The class instance is the record [CrossbillAPI]; methods run in a small
      state-and-exception monad [M] over a [World] holding the instance, the
      wall clock read by [Date.now()], and the log of effects performed.
    - The network is an oracle [net]: the n-th call of [fetch] made by the
      client settles as [net n], either with a [Response] or with a thrown
      transport error, after [elapsed] milliseconds.  Reading the body
      ([text()], [json()]) may itself reject.  The time spent reading a body
      is counted in the exchange's [elapsed]: no clock read happens between
      [fetch] and the body read, so the two delays are indistinguishable.
    - The [headers] a caller passes may take any form of [HeadersInit]; what
      reaches [fetch] is the plain object the client builds with the object
      spread, which copies the entries of a plain object and nothing of a
      [Headers] instance.
    - The persistence callback is a function giving, for the three arguments
      it is called with, how long the returned promise takes and whether it
      resolves or rejects.  It is assumed not to call back into the client. *)

From Stdlib Require Import ZArith Lia Bool List.
From stdpp Require Import base strings gmap pretty.
Import ListNotations.

Open Scope string_scope.
Open Scope Z_scope.

(** ** Values *)

(** [interface LoginResponse] *)
Record LoginResponse := mkLoginResponse {
  access_token : string;
  refresh_token : string;
  token_type : string;
  expires_in : Z
}.

(** What a rejected promise carries.  [NoCredentials] and [LoginFailed] are
    the two [new Error(...)] of the source; [LoginFailed st d] stands for the
    message [`Login failed (${st}): ${d}`].  [Thrown] is any value thrown by
    the platform: [fetch], [response.json()], [response.text()], or by the
    callback. *)
Inductive Exn :=
| NoCredentials
| LoginFailed (st : Z) (detail : string)
| Thrown (what : string).

(** A settled promise. *)
Inductive Settled (A : Type) :=
| Resolved (a : A)
| Rejected (e : Exn).
Arguments Resolved {A} a.
Arguments Rejected {A} e.

(** The part of a fetch [Response] the client looks at. *)
Record Response := mkResponse {
  status : Z;
  statusText : string;
  text : Settled string;
  json : Settled LoginResponse
}.

(** [response.ok]: the status is in the range 200-299. *)
Definition ok (r : Response) : bool :=
  (200 <=? status r) && (status r <=? 299).

Inductive Body :=
| NoBody
| JsonBody (fields : list (string * string))
| FormBody (fields : list (string * string))
| RawBody (s : string).

(** [HeadersInit], the forms the [headers] of a [RequestInit] may take:
    left out, a plain object, a [Headers] instance, or an array of
    name-value pairs. *)
Inductive HeadersInit :=
| NoHeaders
| HeadersRecord (m : gmap string string)
| HeadersObject (m : gmap string string)
| HeadersPairs (l : list (string * string)).

(** What the object spread [{ ...h }] copies: the own enumerable properties
    of [h].  A plain object gives its entries; [undefined] and a [Headers]
    instance give nothing; an array gives one property per index, whose
    value is the pair at that index, recorded the way [fetch] reads a
    header value (the elements joined by a comma). *)
Definition spread (h : HeadersInit) : gmap string string :=
  match h with
  | NoHeaders => ∅
  | HeadersRecord m => m
  | HeadersObject _ => ∅
  | HeadersPairs l =>
      list_to_map (imap (fun (i : nat) (nv : string * string) =>
                           (pretty i, fst nv +:+ "," +:+ snd nv)) l)
  end.

(** [RequestInit], the second argument of [fetch]. *)
Record RequestInit := mkInit {
  method : string;
  headers : HeadersInit;
  body : Body
}.

(** [options: RequestInit = {}] *)
Definition noOptions : RequestInit :=
  {| method := "GET"; headers := NoHeaders; body := NoBody |}.

(** One settled network exchange. *)
Record Exchange := mkExchange {
  elapsed : Z;
  outcome : Settled Response
}.

(** One run of the persistence callback. *)
Record CallbackRun := mkRun {
  cb_elapsed : Z;
  cb_outcome : Settled unit
}.

Definition Callback := string -> string -> Z -> CallbackRun.

(** ** The instance *)

Record CrossbillAPI := mkAPI {
  serverHost : string;
  bearerToken : string;
  refreshToken : string;
  tokenExpiresAt : option Z;
  email : string;
  password : string;
  onTokenUpdate : option Callback
}.

Definition with_bearerToken (v : string) (a : CrossbillAPI) : CrossbillAPI :=
  {| serverHost := serverHost a; bearerToken := v;
     refreshToken := refreshToken a; tokenExpiresAt := tokenExpiresAt a;
     email := email a; password := password a;
     onTokenUpdate := onTokenUpdate a |}.

Definition with_refreshToken (v : string) (a : CrossbillAPI) : CrossbillAPI :=
  {| serverHost := serverHost a; bearerToken := bearerToken a;
     refreshToken := v; tokenExpiresAt := tokenExpiresAt a;
     email := email a; password := password a;
     onTokenUpdate := onTokenUpdate a |}.

Definition with_tokenExpiresAt (v : option Z) (a : CrossbillAPI) : CrossbillAPI :=
  {| serverHost := serverHost a; bearerToken := bearerToken a;
     refreshToken := refreshToken a; tokenExpiresAt := v;
     email := email a; password := password a;
     onTokenUpdate := onTokenUpdate a |}.

Definition with_email (v : string) (a : CrossbillAPI) : CrossbillAPI :=
  {| serverHost := serverHost a; bearerToken := bearerToken a;
     refreshToken := refreshToken a; tokenExpiresAt := tokenExpiresAt a;
     email := v; password := password a;
     onTokenUpdate := onTokenUpdate a |}.

Definition with_password (v : string) (a : CrossbillAPI) : CrossbillAPI :=
  {| serverHost := serverHost a; bearerToken := bearerToken a;
     refreshToken := refreshToken a; tokenExpiresAt := tokenExpiresAt a;
     email := email a; password := v;
     onTokenUpdate := onTokenUpdate a |}.

Definition with_onTokenUpdate (v : option Callback) (a : CrossbillAPI) : CrossbillAPI :=
  {| serverHost := serverHost a; bearerToken := bearerToken a;
     refreshToken := refreshToken a; tokenExpiresAt := tokenExpiresAt a;
     email := email a; password := password a;
     onTokenUpdate := v |}.

(** JavaScript truthiness of a string and of [number | null]. *)
Definition truthy (s : string) : bool :=
  match s with
  | EmptyString => false
  | String _ _ => true
  end.

Definition truthyTime (t : option Z) : bool :=
  match t with
  | None => false
  | Some 0 => false
  | Some _ => true
  end.

(** An optional constructor argument that is given and truthy. *)
Definition given (o : option string) (dflt : string) : string :=
  match o with
  | Some s => if truthy s then s else dflt
  | None => dflt
  end.

(** [constructor(serverHost, bearerToken?, email?, password?, refreshToken?,
    tokenExpiresAt?)] *)
Definition constructor (host : string) (bearer em pw refresh : option string)
    (expiresAt : option Z) : CrossbillAPI :=
  {| serverHost := host;
     bearerToken := given bearer "";
     refreshToken := given refresh "";
     tokenExpiresAt := if truthyTime expiresAt then expiresAt else None;
     email := given em "";
     password := given pw "";
     onTokenUpdate := None |}.

Definition setCredentials (em pw : string) (a : CrossbillAPI) : CrossbillAPI :=
  with_password pw (with_email em a).

Definition setBearerToken (token : string) (refresh : option string)
    (expiresAt : option Z) (a : CrossbillAPI) : CrossbillAPI :=
  let a1 := with_bearerToken token a in
  let a2 := match refresh with
            | Some r => with_refreshToken r a1
            | None => a1
            end in
  match expiresAt with
  | Some e => with_tokenExpiresAt (Some e) a2
  | None => a2
  end.

Definition setOnTokenUpdate (cb : Callback) (a : CrossbillAPI) : CrossbillAPI :=
  with_onTokenUpdate (Some cb) a.

(** ** Effects *)

(** Which [fetch] of the source performed a call. *)
Inductive Site := AtRefresh | AtLogin | AtTarget.

Inductive Event :=
| EvFetch (site : Site) (url : string) (init : RequestInit) (x : Exchange)
| EvNotify (token refresh : string) (expiresAt : Z) (run : CallbackRun).

Record World := mkWorld {
  api : CrossbillAPI;
  clock : Z;
  calls : nat;
  trace : list Event
}.

Definition M (A : Type) : Type := World -> Settled A * World.

Definition ret {A} (a : A) : M A := fun w => (Resolved a, w).

Definition bind {A B} (m : M A) (k : A -> M B) : M B :=
  fun w =>
    match m w with
    | (Resolved a, w') => k a w'
    | (Rejected e, w') => (Rejected e, w')
    end.

Definition throw {A} (e : Exn) : M A := fun w => (Rejected e, w).

(** [try { m } catch { h }] *)
Definition tryCatch {A} (m : M A) (h : M A) : M A :=
  fun w =>
    match m w with
    | (Resolved a, w') => (Resolved a, w')
    | (Rejected _, w') => h w'
    end.

(** [await p] for a promise of the platform whose outcome is known. *)
Definition await {A} (p : Settled A) : M A := fun w => (p, w).

Notation "'let!' x ':=' m 'in' k" := (bind m (fun x => k))
  (at level 10, x name, m at level 100, k at level 200).
Notation "'run!' m 'in' k" := (bind m (fun _ => k))
  (at level 10, m at level 100, k at level 200).

Definition this : M CrossbillAPI := fun w => (Resolved (api w), w).

Definition update (f : CrossbillAPI -> CrossbillAPI) : M unit :=
  fun w =>
    (Resolved tt,
     {| api := f (api w); clock := clock w; calls := calls w; trace := trace w |}).

(** [Date.now()] *)
Definition dateNow : M Z := fun w => (Resolved (clock w), w).

(** Running the callback: its promise is awaited, so its delay is added to
    the clock and a rejection is thrown at the call site. *)
Definition notify (cb : Callback) (token refresh : string) (expiresAt : Z) : M unit :=
  fun w =>
    let run := cb token refresh expiresAt in
    (cb_outcome run,
     {| api := api w; clock := clock w + cb_elapsed run; calls := calls w;
        trace := trace w ++ [EvNotify token refresh expiresAt run] |}).

Definition authRefreshPath : string := "/api/v1/auth/refresh".
Definition authLoginPath : string := "/api/v1/auth/login".

(** The second argument of the [fetch] in [refreshAccessToken] and of the one
    in [login]. *)
Definition refreshInit (a : CrossbillAPI) : RequestInit :=
  {| method := "POST";
     headers := HeadersRecord {[ "Content-Type" := "application/json" ]};
     body := JsonBody [("refresh_token", refreshToken a)] |}.

Definition loginInit (em pw : string) : RequestInit :=
  {| method := "POST";
     headers := HeadersRecord {[ "Content-Type" := "application/x-www-form-urlencoded" ]};
     body := FormBody [("username", em); ("password", pw)] |}.

Section Client.

(** The network: how the n-th call of [fetch] settles. *)
Variable net : nat -> Exchange.

(** [await fetch(url, init)] *)
Definition fetch (site : Site) (url : string) (init : RequestInit) : M Response :=
  fun w =>
    let x := net (calls w) in
    (outcome x,
     {| api := api w; clock := clock w + elapsed x; calls := S (calls w);
        trace := trace w ++ [EvFetch site url init x] |}).

Definition isTokenExpired : M bool :=
  let! a := this in
  if negb (truthyTime (tokenExpiresAt a)) then ret true
  else
    match tokenExpiresAt a with
    | Some e => let! now := dateNow in ret (now >? e - 60000)
    | None => ret true
    end.

(** The two assignments made on a refresh failure (both in the non-ok
    branch and in the [catch] block). *)
Definition clearRefreshState : M unit :=
  run! update (with_refreshToken "") in
  update (with_tokenExpiresAt None).

(** The assignments made on a session response, followed by the guarded
    callback call; the same five statements in refresh and in login. *)
Definition applySession (data : LoginResponse) : M unit :=
  run! update (with_bearerToken (access_token data)) in
  run! update (with_refreshToken (refresh_token data)) in
  let! now := dateNow in
  let expiresAt := now + expires_in data * 1000 in
  run! update (with_tokenExpiresAt (Some expiresAt)) in
  let! a := this in
  match onTokenUpdate a with
  | Some cb => notify cb (bearerToken a) (refreshToken a) expiresAt
  | None => ret tt
  end.

Definition refreshAccessToken : M bool :=
  let! a := this in
  if negb (truthy (refreshToken a)) then ret false
  else
    tryCatch
      (let! response :=
         fetch AtRefresh (serverHost a +:+ authRefreshPath) (refreshInit a) in
       if negb (ok response) then
         run! clearRefreshState in ret false
       else
         let! data := await (json response) in
         run! applySession data in
         ret true)
      (run! clearRefreshState in ret false).

Definition login (em pw : string) : M LoginResponse :=
  let! a := this in
  let! response :=
    fetch AtLogin (serverHost a +:+ authLoginPath) (loginInit em pw) in
  if negb (ok response) then
    let! errorText := await (text response) in
    throw (LoginFailed (status response)
             (if truthy errorText then errorText else statusText response))
  else
    let! data := await (json response) in
    run! applySession data in
    ret data.

(** [this.refreshToken && await this.refreshAccessToken()] *)
Definition haveRefreshed : M bool :=
  let! a := this in
  if truthy (refreshToken a) then refreshAccessToken else ret false.

(** [this.bearerToken && !this.isTokenExpired()] *)
Definition haveValidToken : M bool :=
  let! a := this in
  if truthy (bearerToken a)
  then let! expired := isTokenExpired in ret (negb expired)
  else ret false.

(** The tail of [ensureAuthenticated] under "Fall back to full login". *)
Definition loginFallback : M unit :=
  let! a := this in
  if negb (truthy (email a)) || negb (truthy (password a)) then
    throw NoCredentials
  else
    run! login (email a) (password a) in ret tt.

Definition ensureAuthenticated : M unit :=
  let! valid := haveValidToken in
  if valid then ret tt
  else
    let! refreshed := haveRefreshed in
    if refreshed then ret tt
    else loginFallback.

Definition getAuthHeaders : M (gmap string string) :=
  let! a := this in
  if truthy (bearerToken a)
  then ret {[ "Authorization" := "Bearer " +:+ bearerToken a ]}
  else ret ∅.

(** [{ ...options, headers: { ...options.headers, ...auth } }]: a plain
    object holding what the spread of [options.headers] copies, overridden
    by [auth]: the later spread wins on a common key. *)
Definition withHeaders (options : RequestInit) (auth : gmap string string) : RequestInit :=
  {| method := method options;
     headers := HeadersRecord (auth ∪ spread (headers options));
     body := body options |}.

Definition authenticatedFetch (url : string) (options : RequestInit) : M Response :=
  run! ensureAuthenticated in
  let! auth := getAuthHeaders in
  let! response := fetch AtTarget url (withHeaders options auth) in
  if status response =? 401 then
    run! update (with_bearerToken "") in
    let! refreshed := haveRefreshed in
    if refreshed then
      let! retryAuth := getAuthHeaders in
      fetch AtTarget url (withHeaders options retryAuth)
    else
      run! ensureAuthenticated in
      let! retryAuth := getAuthHeaders in
      fetch AtTarget url (withHeaders options retryAuth)
  else ret response.

End Client.

(** ** Observations on worlds and traces *)

(** The condition of the first [if] of [ensureAuthenticated], at time [now]:
    [this.bearerToken && !this.isTokenExpired()]. *)
Definition isUsable (a : CrossbillAPI) (now : Z) : bool :=
  truthy (bearerToken a) &&
  negb (if negb (truthyTime (tokenExpiresAt a)) then true
        else match tokenExpiresAt a with
             | Some e => now >? e - 60000
             | None => true
             end).

Definition isDispatch (e : Event) : bool :=
  match e with
  | EvFetch AtTarget _ _ _ => true
  | _ => false
  end.

Definition isNotify (e : Event) : bool :=
  match e with
  | EvNotify _ _ _ _ => true
  | _ => false
  end.

(** Number of calls made to the protected endpoint. *)
Definition dispatches (t : list Event) : nat := length (List.filter isDispatch t).

(** Number of callback invocations. *)
Definition notifications (t : list Event) : nat := length (List.filter isNotify t).

(** Time the callback registered in [cbo] takes on the session [d] received
    at time [t]; nothing is awaited when none is registered. *)
Definition sessionDelay (cbo : option Callback) (d : LoginResponse) (t : Z) : Z :=
  match cbo with
  | Some cb => cb_elapsed (cb (access_token d) (refresh_token d) (t + expires_in d * 1000))
  | None => 0
  end.

(** The world right after the session [d], the body of the last exchange
    made, was applied at time [t]. *)
Definition receivedSession (net : nat -> Exchange) (w : World)
    (d : LoginResponse) (t : Z) : Prop :=
  (exists n r, calls w = S n /\ outcome (net n) = Resolved r /\
               ok r = true /\ json r = Resolved d) /\
  bearerToken (api w) = access_token d /\
  refreshToken (api w) = refresh_token d /\
  tokenExpiresAt (api w) = Some (t + expires_in d * 1000) /\
  clock w = t + sessionDelay (onTokenUpdate (api w)) d t.

(** The last thing done between [w] and [w'] was the exchange at [site]
    delivering the session [d], followed by a completed run of the callback
    [cb] on the stored token, refresh token and expiry instant. *)
Definition notifiedLast (net : nat -> Exchange) (cb : Callback) (w w' : World)
    (site : Site) (url : string) (init : RequestInit) (d : LoginResponse) : Prop :=
  let x := net (calls w) in
  let e := clock w + elapsed x + expires_in d * 1000 in
  let run := cb (access_token d) (refresh_token d) e in
  (exists r, outcome x = Resolved r /\ ok r = true /\ json r = Resolved d) /\
  trace w' = (trace w ++ [EvFetch site url init x;
                          EvNotify (access_token d) (refresh_token d) e run])%list /\
  cb_outcome run = Resolved tt /\
  clock w' = clock w + elapsed x + cb_elapsed run /\
  bearerToken (api w') = access_token d /\
  refreshToken (api w') = refresh_token d /\
  tokenExpiresAt (api w') = Some e.

(** What authentication leaves alone between two worlds: the configured
    server, the fallback credentials and the registered callback; and the
    trace only grows, by events that are not calls to the protected
    endpoint. *)
Definition stable (w w' : World) : Prop :=
  serverHost (api w') = serverHost (api w) /\
  email (api w') = email (api w) /\
  password (api w') = password (api w) /\
  onTokenUpdate (api w') = onTokenUpdate (api w) /\
  exists evs, trace w' = (trace w ++ evs)%list /\ dispatches evs = 0%nat.

(** The headers [getAuthHeaders] returns on the instance [a]. *)
Definition authHeaders (a : CrossbillAPI) : gmap string string :=
  if truthy (bearerToken a)
  then {[ "Authorization" := "Bearer " +:+ bearerToken a ]}
  else ∅.

(** The exchange did not deliver a session: transport error, non-success
    status, or a body that does not parse. *)
Definition exchangeFailed (x : Exchange) : bool :=
  match outcome x with
  | Rejected _ => true
  | Resolved r =>
      if ok r then match json r with Rejected _ => true | Resolved _ => false end
      else true
  end.

(** ** Worlds reached by the primitives *)

(** The world after the exchange [x] answered a [fetch]. *)
Definition sent (site : Site) (url : string) (init : RequestInit)
    (x : Exchange) (w : World) : World :=
  {| api := api w; clock := clock w + elapsed x; calls := S (calls w);
     trace := trace w ++ [EvFetch site url init x] |}.

(** The instance after the three assignments of a session received at [t]. *)
Definition applied (d : LoginResponse) (t : Z) (a : CrossbillAPI) : CrossbillAPI :=
  with_tokenExpiresAt (Some (t + expires_in d * 1000))
    (with_refreshToken (refresh_token d)
       (with_bearerToken (access_token d) a)).

(** The instance after the two assignments of a failed refresh. *)
Definition cleared (a : CrossbillAPI) : CrossbillAPI :=
  with_tokenExpiresAt None (with_refreshToken "" a).

Definition withApi (a : CrossbillAPI) (w : World) : World :=
  {| api := a; clock := clock w; calls := calls w; trace := trace w |}.

(** ** Concrete scenarios *)

Module Scenario.

Definition host : string := "https://crossbill.example".

(** A session valid for thirty seconds and one valid for an hour. *)
Definition shortSession : LoginResponse :=
  {| access_token := "at-2"; refresh_token := "rt-2";
     token_type := "bearer"; expires_in := 30 |}.

Definition hourSession : LoginResponse :=
  {| access_token := "at-2"; refresh_token := "rt-2";
     token_type := "bearer"; expires_in := 3600 |}.

Definition success (d : LoginResponse) : Exchange :=
  {| elapsed := 0;
     outcome := Resolved {| status := 200; statusText := "OK";
                            text := Resolved ""; json := Resolved d |} |}.

Definition answer (st : Z) (reason : string) : Exchange :=
  {| elapsed := 0;
     outcome := Resolved {| status := st; statusText := reason;
                            text := Resolved "";
                            json := Rejected (Thrown "SyntaxError") |} |}.


Definition start (a : CrossbillAPI) (now : Z) : World :=
  {| api := a; clock := now; calls := 0; trace := [] |}.

(** Only email and password are configured. *)
Definition fresh : CrossbillAPI :=
  constructor host None (Some "reader@example.org") (Some "secret") None None.

(** Nothing but the server is configured. *)
Definition blank : CrossbillAPI :=
  constructor host None None None None None.

(** A stored session expiring at 100000 ms. *)
Definition stored : CrossbillAPI :=
  constructor host (Some "at-1") (Some "reader@example.org") (Some "secret")
    (Some "rt-1") (Some 100000).

(** A callback that resolves after 5 ms and one that rejects. *)
Definition saving : Callback :=
  fun _ _ _ => {| cb_elapsed := 5; cb_outcome := Resolved tt |}.


End Scenario.

(** ** The data endpoints *)

Definition booksPath : string := "/api/v1/books?limit=1000".
Definition bookPathPrefix : string := "/api/v1/books/".

Section Endpoints.

(** The network, as in [Section Client]. *)
Variable net : nat -> Exchange.

(** [BooksListResponse] and [BookDetails] are declared in [./types], which
    is not part of the sources at hand; the two methods only pass values of
    these types on.  [booksOf r] and [detailsOf r] are what [r.json()]
    settles to when the body is read at these types. *)
Variables BooksListResponse BookDetails : Type.
Variable booksOf : Response -> Settled BooksListResponse.
Variable detailsOf : Response -> Settled BookDetails.

(** How the platform renders a number inside a template literal. *)
Variable showNumber : Z -> string.

(** [new Error(message)] of the two methods below, carried with its message. *)
Definition failure {A} (message : string) : M A := throw (Thrown message).

Definition getBooks : M BooksListResponse :=
  let! a := this in
  let! response := authenticatedFetch net (serverHost a +:+ booksPath) noOptions in
  if negb (ok response) then
    failure ("Failed to fetch books: " +:+ statusText response)
  else await (booksOf response).

Definition getBookDetails (bookId : Z) : M BookDetails :=
  let! a := this in
  let! response :=
    authenticatedFetch net (serverHost a +:+ bookPathPrefix +:+ showNumber bookId)
      noOptions in
  if negb (ok response) then
    failure ("Failed to fetch book details: " +:+ statusText response)
  else await (detailsOf response).

End Endpoints.

(** ** Observations on requests *)

(** The event is not a call to the protected endpoint, or it is one that
    repeats the caller's request: same url, method and body, and as headers
    a plain object that holds, except possibly for [Authorization], what the
    object spread copies from the caller's [headers]. *)
Definition sameRequest (url : string) (options : RequestInit) (ev : Event) : Prop :=
  match ev with
  | EvFetch AtTarget u init _ =>
      u = url /\ method init = method options /\ body init = body options /\
      exists m, headers init = HeadersRecord m /\
        forall k : string, k <> "Authorization" ->
          m !! k = spread (headers options) !! k
  | _ => True
  end.

Definition isAuthFetch (site : Site) (e : Event) : bool :=
  match e, site with
  | EvFetch AtRefresh _ _ _, AtRefresh => true
  | EvFetch AtLogin _ _ _, AtLogin => true
  | _, _ => false
  end.

(** Number of exchanges made at the refresh endpoint, and at the login one. *)
Definition refreshes (t : list Event) : nat :=
  length (List.filter (isAuthFetch AtRefresh) t).

Definition logins (t : list Event) : nat :=
  length (List.filter (isAuthFetch AtLogin) t).

(** The callback, if one is registered on [a], resolves when run on the
    session [d] stored at time [t]. *)
Definition callbackResolves (a : CrossbillAPI) (d : LoginResponse) (t : Z) : Prop :=
  match onTokenUpdate a with
  | Some cb =>
      cb_outcome (cb (access_token d) (refresh_token d) (t + expires_in d * 1000))
      = Resolved tt
  | None => True
  end.

(** The callback events of storing the session [d] at time [t] on [a]. *)
Definition notice (a : CrossbillAPI) (d : LoginResponse) (t : Z) : list Event :=
  match onTokenUpdate a with
  | Some cb =>
      [EvNotify (access_token d) (refresh_token d) (t + expires_in d * 1000)
         (cb (access_token d) (refresh_token d) (t + expires_in d * 1000))]
  | None => []
  end.

(** The session [d] was delivered by an authentication exchange recorded
    in [t]: a refresh or login answered within 200-299 with body [d]. *)
Definition delivered (t : list Event) (d : LoginResponse) : Prop :=
  exists site u init x r,
    In (EvFetch site u init x) t /\ site <> AtTarget /\
    outcome x = Resolved r /\ ok r = true /\ json r = Resolved d.

(** Where an access token, and a refresh token, in use after the events [t]
    can come from: the instance [a0] the call started on, or a session
    delivered in [t]. *)
Definition knownBearer (a0 : CrossbillAPI) (t : list Event) (s : string) : Prop :=
  s = bearerToken a0 \/ exists d, delivered t d /\ s = access_token d.

Definition knownRefresh (a0 : CrossbillAPI) (t : list Event) (s : string) : Prop :=
  s = refreshToken a0 \/ exists d, delivered t d /\ s = refresh_token d.

(** What an event of [authenticatedFetch(url, options)], started on the
    instance [a0], may be after the events [p] of that call:
    - a refresh request: a POST to the refresh endpoint of the configured
      server, with the JSON content type as its only header and, as body,
      the single field [refresh_token] holding a non-empty known refresh
      token;
    - a login request: a POST to the login endpoint, with the form content
      type as its only header and the configured email and password as the
      fields [username] and [password];
    - a call to [url] with the caller's method and body, whose headers are
      what the spread copies from the caller's, alone or under an
      [Authorization] of [Bearer] and a non-empty known access token;
    - a run of the callback on the tokens of a delivered session. *)
Definition wireEvent (url : string) (options : RequestInit) (a0 : CrossbillAPI)
    (p : list Event) (ev : Event) : Prop :=
  match ev with
  | EvFetch AtRefresh u init _ =>
      u = serverHost a0 +:+ "/api/v1/auth/refresh" /\
      exists rt, truthy rt = true /\ knownRefresh a0 p rt /\
        init = {| method := "POST";
                  headers := HeadersRecord {[ "Content-Type" := "application/json" ]};
                  body := JsonBody [("refresh_token", rt)] |}
  | EvFetch AtLogin u init _ =>
      u = serverHost a0 +:+ "/api/v1/auth/login" /\
      init = {| method := "POST";
                headers := HeadersRecord
                             {[ "Content-Type" := "application/x-www-form-urlencoded" ]};
                body := FormBody [("username", email a0); ("password", password a0)] |}
  | EvFetch AtTarget u init _ =>
      u = url /\ method init = method options /\ body init = body options /\
      (headers init = HeadersRecord (spread (headers options)) \/
       exists s, truthy s = true /\ knownBearer a0 p s /\
         headers init =
           HeadersRecord ({[ "Authorization" := "Bearer " +:+ s ]}
                            ∪ spread (headers options)))
  | EvNotify token refresh _ _ =>
      exists d, delivered p d /\ token = access_token d /\ refresh = refresh_token d
  end.

(** Every event of [q] is as [wireEvent] allows after [p] and the events of
    [q] before it. *)
Fixpoint wiredFrom (url : string) (options : RequestInit) (a0 : CrossbillAPI)
    (p q : list Event) : Prop :=
  match q with
  | [] => True
  | ev :: q' =>
      wireEvent url options a0 p ev /\ wiredFrom url options a0 (p ++ [ev]) q'
  end.

(** The instance [a], reached from [a0] through the events [p], still has
    the configuration of [a0], and its tokens, when non-empty, are known. *)
Definition tracked (a0 : CrossbillAPI) (p : list Event) (a : CrossbillAPI) : Prop :=
  serverHost a = serverHost a0 /\ email a = email a0 /\ password a = password a0 /\
  onTokenUpdate a = onTokenUpdate a0 /\
  (truthy (bearerToken a) = true -> knownBearer a0 p (bearerToken a)) /\
  (truthy (refreshToken a) = true -> knownRefresh a0 p (refreshToken a)).

(** Between [w] and [w'] the trace grew by events allowed after [p], and
    the instance stayed tracked. *)
Definition wiredStep (url : string) (options : RequestInit) (a0 : CrossbillAPI)
    (p : list Event) (w w' : World) : Prop :=
  exists q,
    trace w' = (trace w ++ q)%list /\
    wiredFrom url options a0 p q /\
    tracked a0 (p ++ q) (api w').

(** ** Proof infrastructure *)

Ltac unfold_monad :=
  unfold bind, ret, throw, await, tryCatch, this, update, dateNow, notify in *.

Lemma dispatches_snoc (t : list Event) (e : Event) :
  dispatches (t ++ [e]) = (dispatches t + (if isDispatch e then 1 else 0))%nat.
Proof.
  unfold dispatches. rewrite List.filter_app, length_app. simpl.
  destruct (isDispatch e); reflexivity.
Qed.

Lemma notifications_snoc (t : list Event) (e : Event) :
  notifications (t ++ [e]) = (notifications t + (if isNotify e then 1 else 0))%nat.
Proof.
  unfold notifications. rewrite List.filter_app, length_app. simpl.
  destruct (isNotify e); reflexivity.
Qed.

(** *** The expiry check *)

Lemma isTokenExpired_run (w : World) :
  isTokenExpired w =
  (Resolved (match tokenExpiresAt (api w) with
             | None => true
             | Some e => if truthyTime (Some e) then clock w >? e - 60000 else true
             end), w).
Proof.
  unfold isTokenExpired. unfold_monad.
  destruct (tokenExpiresAt (api w)) as [e|]; [|reflexivity].
  destruct (truthyTime (Some e)); reflexivity.
Qed.

Lemma haveValidToken_run (w : World) :
  haveValidToken w = (Resolved (isUsable (api w) (clock w)), w).
Proof.
  unfold haveValidToken, isUsable, bind at 1, this.
  destruct (truthy (bearerToken (api w))); [|reflexivity].
  unfold bind, ret. rewrite isTokenExpired_run.
  destruct (tokenExpiresAt (api w)) as [e|]; [|reflexivity].
  destruct (truthyTime (Some e)); reflexivity.
Qed.

(** The check in arithmetic terms: a truthy token, an expiry instant that
    is not [0], and at least 60000 ms left. *)
Lemma isUsable_true_iff (a : CrossbillAPI) (now : Z) :
  isUsable a now = true <->
  truthy (bearerToken a) = true /\
  exists e, tokenExpiresAt a = Some e /\ e <> 0 /\ now <= e - 60000.
Proof.
  unfold isUsable. rewrite andb_true_iff, negb_true_iff.
  destruct (tokenExpiresAt a) as [e|]; simpl.
  - destruct e as [|p|p]; simpl.
    + split; [intros [_ H]; discriminate | intros [_ [e [He [Hne _]]]]; congruence].
    + rewrite Z.gtb_ltb, Z.ltb_ge.
      split; [intros [H1 H2]; split; [assumption|]; eexists; repeat split; [lia | exact H2]
             | intros [H1 [e [He [_ H2]]]]; inversion He; subst; split; assumption].
    + rewrite Z.gtb_ltb, Z.ltb_ge.
      split; [intros [H1 H2]; split; [assumption|]; eexists; repeat split; [lia | exact H2]
             | intros [H1 [e [He [_ H2]]]]; inversion He; subst; split; assumption].
  - split; [intros [_ H]; discriminate | intros [_ [e [He _]]]; discriminate].
Qed.

(** *** Running the primitives *)

Lemma fetch_run net site url init w :
  fetch net site url init w =
  (outcome (net (calls w)), sent site url init (net (calls w)) w).
Proof. reflexivity. Qed.

Lemma clearRefreshState_run w :
  clearRefreshState w = (Resolved tt, withApi (cleared (api w)) w).
Proof. reflexivity. Qed.

Lemma applySession_run d w :
  applySession d w =
  match onTokenUpdate (api w) with
  | Some cb =>
      let e := clock w + expires_in d * 1000 in
      let run := cb (access_token d) (refresh_token d) e in
      (cb_outcome run,
       {| api := applied d (clock w) (api w);
          clock := clock w + cb_elapsed run;
          calls := calls w;
          trace := trace w ++ [EvNotify (access_token d) (refresh_token d) e run] |})
  | None => (Resolved tt, withApi (applied d (clock w) (api w)) w)
  end.
Proof.
  unfold applySession. unfold_monad. simpl.
  destruct (onTokenUpdate (api w)); reflexivity.
Qed.

(** Every way [refreshAccessToken] can run once a refresh token is there. *)
Lemma refreshAccessToken_run net w :
  truthy (refreshToken (api w)) = true ->
  let x := net (calls w) in
  let w1 := sent AtRefresh (serverHost (api w) +:+ authRefreshPath)
              (refreshInit (api w)) x w in
  refreshAccessToken net w =
  match outcome x with
  | Rejected _ => (Resolved false, withApi (cleared (api w1)) w1)
  | Resolved r =>
      if ok r then
        match json r with
        | Rejected _ => (Resolved false, withApi (cleared (api w1)) w1)
        | Resolved d =>
            match applySession d w1 with
            | (Resolved _, w2) => (Resolved true, w2)
            | (Rejected _, w2) => (Resolved false, withApi (cleared (api w2)) w2)
            end
        end
      else (Resolved false, withApi (cleared (api w1)) w1)
  end.
Proof.
  intros Ht x w1. subst x w1.
  unfold refreshAccessToken, clearRefreshState, fetch.
  unfold_monad. rewrite Ht. simpl.
  destruct (outcome (net (calls w))) as [r|e]; [|reflexivity].
  destruct (ok r); simpl; [|reflexivity].
  destruct (json r) as [d|e]; [|reflexivity].
  fold (sent AtRefresh (serverHost (api w) +:+ authRefreshPath)
          (refreshInit (api w)) (net (calls w)) w).
  destruct (applySession d _) as [[[]|e] w2]; reflexivity.
Qed.

Lemma refreshAccessToken_none net w :
  truthy (refreshToken (api w)) = false ->
  refreshAccessToken net w = (Resolved false, w).
Proof.
  intros Ht. unfold refreshAccessToken, bind, this. rewrite Ht. reflexivity.
Qed.

(** Every way [login] can run. *)
Lemma login_run net em pw w :
  let x := net (calls w) in
  let w1 := sent AtLogin (serverHost (api w) +:+ authLoginPath) (loginInit em pw) x w in
  login net em pw w =
  match outcome x with
  | Rejected e => (Rejected e, w1)
  | Resolved r =>
      if ok r then
        match json r with
        | Rejected e => (Rejected e, w1)
        | Resolved d =>
            match applySession d w1 with
            | (Resolved _, w2) => (Resolved d, w2)
            | (Rejected e, w2) => (Rejected e, w2)
            end
        end
      else
        match text r with
        | Rejected e => (Rejected e, w1)
        | Resolved errorText =>
            (Rejected (LoginFailed (status r)
                         (if truthy errorText then errorText else statusText r)), w1)
        end
  end.
Proof.
  intros x w1. subst x w1.
  unfold login, fetch.
  unfold_monad. simpl.
  destruct (outcome (net (calls w))) as [r|e]; [|reflexivity].
  destruct (ok r); simpl.
  - destruct (json r) as [d|e]; [|reflexivity].
    fold (sent AtLogin (serverHost (api w) +:+ authLoginPath)
            (loginInit em pw) (net (calls w)) w).
    destruct (applySession d _) as [[[]|e] w2]; reflexivity.
  - destruct (text r); reflexivity.
Qed.

Lemma haveRefreshed_run net w :
  haveRefreshed net w = refreshAccessToken net w.
Proof.
  unfold haveRefreshed, bind, this.
  destruct (truthy (refreshToken (api w))) eqn:Ht; [reflexivity|].
  rewrite refreshAccessToken_none by assumption. reflexivity.
Qed.

Lemma ensureAuthenticated_run net w :
  ensureAuthenticated net w =
  if isUsable (api w) (clock w) then (Resolved tt, w)
  else match refreshAccessToken net w with
       | (Resolved true, w1) => (Resolved tt, w1)
       | (Resolved false, w1) => loginFallback net w1
       | (Rejected e, w1) => (Rejected e, w1)
       end.
Proof.
  unfold ensureAuthenticated. unfold bind at 1. rewrite haveValidToken_run.
  destruct (isUsable (api w) (clock w)); [reflexivity|].
  unfold bind at 1. rewrite haveRefreshed_run.
  destruct (refreshAccessToken net w) as [[[]|e] w1]; reflexivity.
Qed.

Lemma loginFallback_run net w :
  loginFallback net w =
  if negb (truthy (email (api w))) || negb (truthy (password (api w)))
  then (Rejected NoCredentials, w)
  else match login net (email (api w)) (password (api w)) w with
       | (Resolved _, w1) => (Resolved tt, w1)
       | (Rejected e, w1) => (Rejected e, w1)
       end.
Proof.
  unfold loginFallback, bind at 1, this.
  destruct (negb (truthy (email (api w))) || negb (truthy (password (api w))));
    [reflexivity|].
  unfold bind, ret. destruct (login net _ _ w) as [[d|e] w1]; reflexivity.
Qed.

(** ** The usability check *)

(** C3, as amended.  For a credential state with a non-empty access token
    (and the epoch clock not negative): when [expiresAt] is present and the
    current time is at least 60 seconds before it, the check of
    [ensureAuthenticated] succeeds; when the current time is less than 60
    seconds before [expiresAt] or past it, or [expiresAt] is absent, the
    check fails.  The check reads the clock and changes nothing. *)
Theorem usable_margin (w : World) :
  truthy (bearerToken (api w)) = true ->
  0 <= clock w ->
  (forall e, tokenExpiresAt (api w) = Some e -> clock w <= e - 60000 ->
             haveValidToken w = (Resolved true, w)) /\
  (forall e, tokenExpiresAt (api w) = Some e -> e - 60000 < clock w ->
             haveValidToken w = (Resolved false, w)) /\
  (tokenExpiresAt (api w) = None -> haveValidToken w = (Resolved false, w)).
Proof.
  intros Htok Hnow. rewrite haveValidToken_run.
  repeat split; intros.
  - replace (isUsable (api w) (clock w)) with true; [reflexivity|].
    symmetry. apply isUsable_true_iff. split; [assumption|].
    exists e. repeat split; [assumption | lia | assumption].
  - destruct (isUsable (api w) (clock w)) eqn:Hu; [|reflexivity].
    apply isUsable_true_iff in Hu. destruct Hu as [_ [e' [He' [_ Hle]]]].
    assert (e' = e) by congruence. subst. lia.
  - destruct (isUsable (api w) (clock w)) eqn:Hu; [|reflexivity].
    apply isUsable_true_iff in Hu. destruct Hu as [_ [e' [He' _]]]. congruence.
Qed.

Lemma usable_margin_witness :
  haveValidToken (Scenario.start Scenario.stored 40000)
  = (Resolved true, Scenario.start Scenario.stored 40000) /\
  haveValidToken (Scenario.start Scenario.stored 40001)
  = (Resolved false, Scenario.start Scenario.stored 40001).
Proof.
  split.
  - apply (proj1 (usable_margin (Scenario.start Scenario.stored 40000)
                    eq_refl ltac:(simpl; lia)) 100000);
      [reflexivity | simpl; lia].
  - apply (proj1 (proj2 (usable_margin (Scenario.start Scenario.stored 40001)
                           eq_refl ltac:(simpl; lia))) 100000);
      [reflexivity | simpl; lia].
Defined.

(** C3 as stated fails on the margin itself: with a token expiring at
    100000 ms and the clock at 40000 ms, the current time is within 60
    seconds of [expiresAt] (exactly 60000 ms before it, not more), yet the
    check succeeds. *)
Lemma usable_on_the_margin :
  let w := Scenario.start Scenario.stored 40000 in
  truthy (bearerToken (api w)) = true /\
  tokenExpiresAt (api w) = Some 100000 /\
  ~ (clock w < 100000 - 60000) /\
  100000 - clock w <= 60000 /\
  haveValidToken w = (Resolved true, w).
Proof.
  simpl. repeat split; try reflexivity; lia.
Qed.

(** ** Refresh *)

(** C4.  A run of [refreshAccessToken] that has a refresh token to send,
    hence attempts the exchange, and fails -- by a thrown transport error, a
    non-success response or an unparsable body, or else by a callback that
    rejects once the session is stored -- returns [false] with the refresh
    token empty and [expiresAt] absent, after that one exchange. *)
Theorem refresh_failure_clears net (w : World) :
  truthy (refreshToken (api w)) = true ->
  (exchangeFailed (net (calls w)) = true \/
   exists r d cb e,
     outcome (net (calls w)) = Resolved r /\ ok r = true /\ json r = Resolved d /\
     onTokenUpdate (api w) = Some cb /\
     cb_outcome (cb (access_token d) (refresh_token d)
                   (clock w + elapsed (net (calls w)) + expires_in d * 1000))
     = Rejected e) ->
  fst (refreshAccessToken net w) = Resolved false /\
  refreshToken (api (snd (refreshAccessToken net w))) = "" /\
  tokenExpiresAt (api (snd (refreshAccessToken net w))) = None /\
  calls (snd (refreshAccessToken net w)) = S (calls w).
Proof.
  intros Ht Hcause. rewrite (refreshAccessToken_run net w Ht). cbv zeta.
  destruct Hcause as [Hx | (r & d & cb & e & Hx & Hok & Hj & Hcb & Hrej)].
  - unfold exchangeFailed in Hx.
    destruct (outcome (net (calls w))) as [resp|e]; [|repeat split].
    destruct (ok resp); [|repeat split].
    destruct (json resp); [discriminate | repeat split].
  - rewrite Hx, Hok, Hj, applySession_run. cbn [api sent clock].
    rewrite Hcb. cbv zeta. rewrite Hrej. repeat split.
Qed.

(** The three causes of failure named by C4 do make the refresh fail. *)
Lemma refresh_fails_on_failed_exchange net (w : World) :
  truthy (refreshToken (api w)) = true ->
  exchangeFailed (net (calls w)) = true ->
  fst (refreshAccessToken net w) = Resolved false.
Proof.
  intros Ht Hx. rewrite (refreshAccessToken_run net w Ht). cbv zeta.
  unfold exchangeFailed in Hx.
  destruct (outcome (net (calls w))) as [resp|e]; [|reflexivity].
  destruct (ok resp); [|reflexivity].
  destruct (json resp); [discriminate | reflexivity].
Qed.

Lemma refresh_failure_clears_witness :
  let w := Scenario.start Scenario.stored 0 in
  let out := refreshAccessToken (fun _ => Scenario.answer 401 "Unauthorized") w in
  fst out = Resolved false /\
  refreshToken (api (snd out)) = "" /\
  tokenExpiresAt (api (snd out)) = None /\
  calls (snd out) = S (calls w).
Proof.
  cbv zeta.
  apply (refresh_failure_clears (fun _ => Scenario.answer 401 "Unauthorized")
           (Scenario.start Scenario.stored 0) eq_refl).
  left. reflexivity.
Defined.




(** ** Login *)

(** C9.  A [login] that receives a non-success response throws, leaves every
    credential field as it was, and does not invoke the callback: the only
    effect is the login exchange itself. *)
Theorem login_rejected_changes_nothing net (em pw : string) (w : World) (r : Response) :
  outcome (net (calls w)) = Resolved r ->
  ok r = false ->
  (exists e, fst (login net em pw w) = Rejected e) /\
  api (snd (login net em pw w)) = api w /\
  trace (snd (login net em pw w)) =
    (trace w ++ [EvFetch AtLogin (serverHost (api w) +:+ authLoginPath)
                   (loginInit em pw) (net (calls w))])%list /\
  notifications (trace (snd (login net em pw w))) = notifications (trace w).
Proof.
  intros Hx Hok. rewrite login_run. cbv zeta. rewrite Hx, Hok.
  destruct (text r) as [errorText|e]; simpl;
    (split; [eexists; reflexivity|]);
    (split; [reflexivity|]);
    (split; [reflexivity|]);
    rewrite notifications_snoc; simpl; lia.
Qed.

Lemma login_rejected_changes_nothing_witness :
  let net := fun _ : nat => Scenario.answer 403 "Forbidden" in
  let w := Scenario.start (setOnTokenUpdate Scenario.saving Scenario.stored) 7 in
  let out := login net "reader@example.org" "wrong" w in
  (exists e, fst out = Rejected e) /\
  api (snd out) = api w /\
  trace (snd out) =
    (trace w ++ [EvFetch AtLogin (serverHost (api w) +:+ authLoginPath)
                   (loginInit "reader@example.org" "wrong") (net (calls w))])%list /\
  notifications (trace (snd out)) = notifications (trace w).
Proof.
  cbv zeta.
  apply (login_rejected_changes_nothing (fun _ => Scenario.answer 403 "Forbidden")
           "reader@example.org" "wrong"
           (Scenario.start (setOnTokenUpdate Scenario.saving Scenario.stored) 7)
           {| status := 403; statusText := "Forbidden"; text := Resolved "";
              json := Rejected (Thrown "SyntaxError") |});
    reflexivity.
Defined.

(** The error thrown in the setting of C9 when the body can be read. *)
Lemma login_rejected_error net (em pw : string) (w : World) (r : Response) (t : string) :
  outcome (net (calls w)) = Resolved r ->
  ok r = false ->
  text r = Resolved t ->
  fst (login net em pw w) =
  Rejected (LoginFailed (status r) (if truthy t then t else statusText r)).
Proof.
  intros Hx Hok Ht. rewrite login_run. cbv zeta. rewrite Hx, Hok, Ht. reflexivity.
Qed.

(** ** The persistence callback *)

(** C7, as amended.  On an instance with a registered callback, every
    [login] that returns and every [refreshAccessToken] that returns [true]
    has, as its last effect, invoked the callback with the new access token,
    the new refresh token and the new expiry instant, in that order; the
    callback's promise has resolved and its duration has elapsed when
    control returns.  On an instance without a registered callback no run
    of [login] or of [refreshAccessToken] invokes anything. *)
Theorem success_notifies net (w : World) :
  (forall cb,
      onTokenUpdate (api w) = Some cb ->
      (forall em pw d w',
          login net em pw w = (Resolved d, w') ->
          notifiedLast net cb w w' AtLogin (serverHost (api w) +:+ authLoginPath)
            (loginInit em pw) d) /\
      (forall w',
          refreshAccessToken net w = (Resolved true, w') ->
          exists d,
            notifiedLast net cb w w' AtRefresh (serverHost (api w) +:+ authRefreshPath)
              (refreshInit (api w)) d)) /\
  (onTokenUpdate (api w) = None ->
   (forall em pw,
       notifications (trace (snd (login net em pw w))) = notifications (trace w)) /\
   notifications (trace (snd (refreshAccessToken net w))) = notifications (trace w)).
Proof.
  split.
  - intros cb Hcb. split.
    + intros em pw d w' Hrun. rewrite login_run in Hrun. cbv zeta in Hrun.
      destruct (outcome (net (calls w))) as [resp|e] eqn:Hx; [|discriminate].
      destruct (ok resp) eqn:Hok.
      * destruct (json resp) as [d0|e] eqn:Hj; [|discriminate].
        rewrite applySession_run in Hrun. simpl in Hrun. rewrite Hcb in Hrun.
        cbv zeta in Hrun.
        destruct (cb_outcome _) as [[]|e] eqn:Hout; [|discriminate].
        inversion Hrun; subst. unfold notifiedLast. simpl.
        rewrite <- app_assoc. simpl.
        split; [exists resp; repeat split; assumption|].
        repeat split. exact Hout.
      * destruct (text resp); discriminate.
    + intros w' Hrun.
      destruct (truthy (refreshToken (api w))) eqn:Ht;
        [|rewrite refreshAccessToken_none in Hrun by assumption; discriminate].
      rewrite (refreshAccessToken_run net w Ht) in Hrun. cbv zeta in Hrun.
      destruct (outcome (net (calls w))) as [resp|e] eqn:Hx; [|discriminate].
      destruct (ok resp) eqn:Hok; [|discriminate].
      destruct (json resp) as [d|e] eqn:Hj; [|discriminate].
      rewrite applySession_run in Hrun. simpl in Hrun. rewrite Hcb in Hrun.
      cbv zeta in Hrun.
      destruct (cb_outcome _) as [[]|e] eqn:Hout; [|discriminate].
      inversion Hrun; subst. exists d. unfold notifiedLast. simpl.
      rewrite <- app_assoc. simpl.
      split; [exists resp; repeat split; assumption|].
      repeat split. exact Hout.
  - intros Hnone. split.
    + intros em pw. rewrite login_run. cbv zeta.
      assert (H1 : notifications
                     (trace (sent AtLogin (serverHost (api w) +:+ authLoginPath)
                               (loginInit em pw) (net (calls w)) w))
                   = notifications (trace w))
        by (cbn [trace sent]; rewrite notifications_snoc; simpl; lia).
      destruct (outcome (net (calls w))) as [resp|e]; [|exact H1].
      destruct (ok resp); [|destruct (text resp); exact H1].
      destruct (json resp) as [d|e]; [|exact H1].
      rewrite applySession_run. cbn [api sent]. rewrite Hnone. exact H1.
    + destruct (truthy (refreshToken (api w))) eqn:Ht;
        [|rewrite refreshAccessToken_none by assumption; reflexivity].
      rewrite (refreshAccessToken_run net w Ht). cbv zeta.
      assert (H1 : notifications
                     (trace (sent AtRefresh (serverHost (api w) +:+ authRefreshPath)
                               (refreshInit (api w)) (net (calls w)) w))
                   = notifications (trace w))
        by (cbn [trace sent]; rewrite notifications_snoc; simpl; lia).
      destruct (outcome (net (calls w))) as [resp|e]; [|exact H1].
      destruct (ok resp); [|exact H1].
      destruct (json resp) as [d|e]; [|exact H1].
      rewrite applySession_run. cbn [api sent]. rewrite Hnone. exact H1.
Qed.

Lemma success_notifies_witness :
  let net := fun _ : nat => Scenario.success Scenario.hourSession in
  let w := Scenario.start (setOnTokenUpdate Scenario.saving Scenario.fresh) 1000 in
  notifiedLast net Scenario.saving w
    (snd (login net "reader@example.org" "secret" w))
    AtLogin (serverHost (api w) +:+ authLoginPath)
    (loginInit "reader@example.org" "secret") Scenario.hourSession.
Proof.
  cbv zeta.
  apply (proj1 (proj1 (success_notifies (fun _ => Scenario.success Scenario.hourSession)
                         (Scenario.start
                            (setOnTokenUpdate Scenario.saving Scenario.fresh) 1000))
                  Scenario.saving eq_refl)).
  reflexivity.
Defined.

(** C7 as stated fails on an instance without a registered callback (the
    state every constructed instance starts in): the login succeeds, the
    new tokens are stored, and nothing is notified. *)
Lemma login_without_callback_is_silent :
  let net := fun _ : nat => Scenario.success Scenario.hourSession in
  let out := login net "reader@example.org" "secret" (Scenario.start Scenario.fresh 1000) in
  fst out = Resolved Scenario.hourSession /\
  bearerToken (api (snd out)) = "at-2" /\
  notifications (trace (snd out)) = 0%nat.
Proof.
  vm_compute. repeat split.
Qed.

(** ** What authentication leaves alone *)

Lemma dispatches_app (t1 t2 : list Event) :
  dispatches (t1 ++ t2) = (dispatches t1 + dispatches t2)%nat.
Proof. unfold dispatches. rewrite List.filter_app, length_app. reflexivity. Qed.

Lemma stable_refl w : stable w w.
Proof.
  repeat split. exists []. split; [symmetry; apply app_nil_r | reflexivity].
Qed.

Lemma stable_trans w1 w2 w3 : stable w1 w2 -> stable w2 w3 -> stable w1 w3.
Proof.
  unfold stable.
  intros (A1 & A2 & A3 & A4 & evs1 & T1 & D1) (B1 & B2 & B3 & B4 & evs2 & T2 & D2).
  repeat split; try congruence.
  exists (evs1 ++ evs2)%list. split.
  - rewrite T2, T1. symmetry. apply app_assoc.
  - rewrite dispatches_app. lia.
Qed.

Lemma stable_dispatches w w' :
  stable w w' -> dispatches (trace w') = dispatches (trace w).
Proof.
  intros (_ & _ & _ & _ & evs & T & D). rewrite T, dispatches_app. lia.
Qed.

Lemma stable_sent site url init x w :
  site <> AtTarget -> stable w (sent site url init x w).
Proof.
  intros Hs. unfold stable, sent. simpl. repeat split.
  eexists. split; [reflexivity|].
  destruct site; try congruence; reflexivity.
Qed.

Lemma stable_withApi a w :
  serverHost a = serverHost (api w) -> email a = email (api w) ->
  password a = password (api w) -> onTokenUpdate a = onTokenUpdate (api w) ->
  stable w (withApi a w).
Proof.
  intros. unfold stable, withApi. simpl. repeat split; try assumption.
  exists []. split; [symmetry; apply app_nil_r | reflexivity].
Qed.

Lemma stable_cleared w : stable w (withApi (cleared (api w)) w).
Proof. apply stable_withApi; reflexivity. Qed.

Lemma stable_applySession d w : stable w (snd (applySession d w)).
Proof.
  rewrite applySession_run.
  destruct (onTokenUpdate (api w)) as [cb|] eqn:Hcb; cbv zeta; simpl.
  - unfold stable. simpl. repeat split.
    eexists. split; reflexivity.
  - apply stable_withApi; reflexivity.
Qed.

Lemma stable_refreshAccessToken net w : stable w (snd (refreshAccessToken net w)).
Proof.
  destruct (truthy (refreshToken (api w))) eqn:Ht;
    [|rewrite refreshAccessToken_none by assumption; apply stable_refl].
  rewrite (refreshAccessToken_run net w Ht). cbv zeta.
  set (w1 := sent AtRefresh _ _ _ w).
  assert (H1 : stable w w1) by (apply stable_sent; discriminate).
  assert (Hc : stable w (withApi (cleared (api w1)) w1))
    by (eapply stable_trans; [exact H1 | apply stable_cleared]).
  destruct (outcome (net (calls w))) as [resp|e]; [|exact Hc].
  destruct (ok resp); [|exact Hc].
  destruct (json resp) as [d|e]; [|exact Hc].
  pose proof (stable_applySession d w1) as H2.
  destruct (applySession d w1) as [[[]|e] w2]; simpl in *.
  - eapply stable_trans; eassumption.
  - eapply stable_trans; [exact H1|].
    eapply stable_trans; [exact H2 | apply stable_cleared].
Qed.

Lemma stable_login net em pw w : stable w (snd (login net em pw w)).
Proof.
  rewrite login_run. cbv zeta.
  set (w1 := sent AtLogin _ _ _ w).
  assert (H1 : stable w w1) by (apply stable_sent; discriminate).
  destruct (outcome (net (calls w))) as [resp|e]; [|exact H1].
  destruct (ok resp).
  - destruct (json resp) as [d|e]; [|exact H1].
    pose proof (stable_applySession d w1) as H2.
    destruct (applySession d w1) as [[[]|e] w2]; simpl in *;
      eapply stable_trans; eassumption.
  - destruct (text resp); exact H1.
Qed.

Lemma stable_loginFallback net w : stable w (snd (loginFallback net w)).
Proof.
  rewrite loginFallback_run.
  destruct (negb (truthy (email (api w))) || negb (truthy (password (api w))));
    [apply stable_refl|].
  pose proof (stable_login net (email (api w)) (password (api w)) w) as H.
  destruct (login net _ _ w) as [[d|e] w1]; exact H.
Qed.

Lemma stable_ensureAuthenticated net w : stable w (snd (ensureAuthenticated net w)).
Proof.
  rewrite ensureAuthenticated_run.
  destruct (isUsable (api w) (clock w)); [apply stable_refl|].
  pose proof (stable_refreshAccessToken net w) as H1.
  destruct (refreshAccessToken net w) as [[[]|e] w1]; simpl in *; try exact H1.
  eapply stable_trans; [exact H1 | apply stable_loginFallback].
Qed.

Lemma getAuthHeaders_run w : getAuthHeaders w = (Resolved (authHeaders (api w)), w).
Proof.
  unfold getAuthHeaders, authHeaders, bind, this, ret.
  destruct (truthy (bearerToken (api w))); reflexivity.
Qed.

(** Every way [authenticatedFetch] can run. *)
Lemma authenticatedFetch_run net url options w :
  authenticatedFetch net url options w =
  match ensureAuthenticated net w with
  | (Rejected e, w1) => (Rejected e, w1)
  | (Resolved _, w1) =>
      let w2 := sent AtTarget url (withHeaders options (authHeaders (api w1)))
                  (net (calls w1)) w1 in
      match outcome (net (calls w1)) with
      | Rejected e => (Rejected e, w2)
      | Resolved response =>
          if status response =? 401 then
            match refreshAccessToken net (withApi (with_bearerToken "" (api w2)) w2) with
            | (Resolved true, w4) =>
                (outcome (net (calls w4)),
                 sent AtTarget url (withHeaders options (authHeaders (api w4)))
                   (net (calls w4)) w4)
            | (Resolved false, w4) =>
                match ensureAuthenticated net w4 with
                | (Resolved _, w5) =>
                    (outcome (net (calls w5)),
                     sent AtTarget url (withHeaders options (authHeaders (api w5)))
                       (net (calls w5)) w5)
                | (Rejected e, w5) => (Rejected e, w5)
                end
            | (Rejected e, w4) => (Rejected e, w4)
            end
          else (Resolved response, w2)
      end
  end.
Proof.
  unfold authenticatedFetch. unfold bind at 1.
  destruct (ensureAuthenticated net w) as [[[]|e] w1]; [|reflexivity].
  unfold bind at 1. rewrite getAuthHeaders_run.
  unfold bind at 1. rewrite fetch_run. cbv zeta.
  destruct (outcome (net (calls w1))) as [response|e]; [|reflexivity].
  destruct (status response =? 401); [|reflexivity].
  unfold bind at 1, update.
  unfold bind at 1. rewrite haveRefreshed_run.
  fold (withApi (with_bearerToken "" (api (sent AtTarget url
          (withHeaders options (authHeaders (api w1))) (net (calls w1)) w1)))
          (sent AtTarget url (withHeaders options (authHeaders (api w1)))
             (net (calls w1)) w1)).
  destruct (refreshAccessToken net _) as [[[]|e] w4]; [| |reflexivity].
  - unfold bind. rewrite getAuthHeaders_run, fetch_run. reflexivity.
  - unfold bind at 1.
    destruct (ensureAuthenticated net w4) as [[[]|e] w5]; [|reflexivity].
    unfold bind. rewrite getAuthHeaders_run, fetch_run. reflexivity.
Qed.

(** ** The authenticated request wrapper *)

Lemma dispatches_sent_target url init x w :
  dispatches (trace (sent AtTarget url init x w)) = S (dispatches (trace w)).
Proof. unfold sent. simpl. rewrite dispatches_snoc. simpl. lia. Qed.

(** C2.  One call of [authenticatedFetch] calls the protected endpoint at
    most twice.  When it does call it twice, the first call was answered
    with status 401, nothing but authentication happened around it, and the
    second call is the last effect of the wrapper: its outcome -- whatever
    the status, 401 included -- is what the wrapper returns. *)
Theorem at_most_one_retry net (url : string) (options : RequestInit) (w : World) :
  let out := authenticatedFetch net url options w in
  (dispatches (trace (snd out)) <= dispatches (trace w) + 2)%nat /\
  ((dispatches (trace (snd out)) = dispatches (trace w) + 2)%nat ->
   exists before init1 x1 r1 between init2 x2,
     trace (snd out) =
       (trace w ++ before ++ [EvFetch AtTarget url init1 x1] ++
        between ++ [EvFetch AtTarget url init2 x2])%list /\
     dispatches before = 0%nat /\ dispatches between = 0%nat /\
     outcome x1 = Resolved r1 /\ status r1 = 401 /\
     fst out = outcome x2).
Proof.
  cbv zeta. rewrite authenticatedFetch_run.
  pose proof (stable_ensureAuthenticated net w) as H1.
  pose proof (stable_dispatches _ _ H1) as D1.
  destruct (ensureAuthenticated net w) as [[[]|e] w1]; cbn [fst snd] in H1, D1;
    destruct H1 as (_ & _ & _ & _ & before & T1 & B1);
    [|cbn [fst snd]; rewrite D1; split; [lia | intros; lia]].
  cbv zeta.
  set (x1 := net (calls w1)).
  set (init1 := withHeaders options (authHeaders (api w1))).
  set (w2 := sent AtTarget url init1 x1 w1).
  assert (D2 : dispatches (trace w2) = S (dispatches (trace w)))
    by (unfold w2; rewrite dispatches_sent_target; congruence).
  destruct (outcome x1) as [r1|e] eqn:Hx1;
    [|cbn [fst snd]; rewrite D2; split; [lia | intros; lia]].
  destruct (status r1 =? 401) eqn:H401;
    [|cbn [fst snd]; rewrite D2; split; [lia | intros; lia]].
  apply Z.eqb_eq in H401.
  set (w3 := withApi (with_bearerToken "" (api w2)) w2).
  assert (T3 : trace w3 = (trace w ++ before ++ [EvFetch AtTarget url init1 x1])%list)
    by (simpl; rewrite T1; symmetry; apply app_assoc).
  pose proof (stable_refreshAccessToken net w3) as H4.
  pose proof (stable_dispatches _ _ H4) as D4.
  change (trace w3) with (trace w2) in D4.
  destruct (refreshAccessToken net w3) as [[[]|e] w4]; cbn [fst snd] in H4, D4;
    destruct H4 as (_ & _ & _ & _ & mid & T4 & B4).
  - cbn [fst snd]. rewrite dispatches_sent_target. split; [lia|].
    intros _. exists before, init1, x1, r1, mid. eexists _, _.
    repeat split; try assumption.
    unfold sent. simpl. rewrite T4, T3. rewrite <- !app_assoc. reflexivity.
  - pose proof (stable_ensureAuthenticated net w4) as H5.
    pose proof (stable_dispatches _ _ H5) as D5.
    destruct (ensureAuthenticated net w4) as [[[]|e] w5]; cbn [fst snd] in H5, D5;
      destruct H5 as (_ & _ & _ & _ & mid' & T5 & B5).
    + cbn [fst snd]. rewrite dispatches_sent_target. split; [lia|].
      intros _. exists before, init1, x1, r1, (mid ++ mid')%list. eexists _, _.
      repeat split; try assumption.
      * unfold sent. simpl. rewrite T5, T4, T3. rewrite <- !app_assoc. reflexivity.
      * rewrite dispatches_app. lia.
    + cbn [fst snd]. split; [lia | intros; lia].
  - cbn [fst snd]. split; [lia | intros; lia].
Qed.

(** A server that answers 401 to everything but the refresh: the wrapper
    calls the endpoint twice and hands the second 401 back. *)
Example second_401_is_returned :
  let net := fun n : nat =>
               match n with
               | 1%nat => Scenario.success Scenario.hourSession
               | _ => Scenario.answer 401 "Unauthorized"
               end in
  let out := authenticatedFetch net "https://crossbill.example/api/v1/books?limit=1000"
               noOptions (Scenario.start Scenario.stored 0) in
  fst out = outcome (Scenario.answer 401 "Unauthorized") /\
  dispatches (trace (snd out)) = 2%nat /\
  calls (snd out) = 3%nat.
Proof.
  vm_compute. repeat split.
Qed.

(** C8.  Neither clearing operation touches the fallback credentials: the
    assignment emptying the access token after a 401 and the assignments of
    a failed refresh leave [email] and [password] as they were, and so do
    [refreshAccessToken] and [authenticatedFetch] as a whole, however they
    end. *)
Theorem clearing_keeps_fallback net (url : string) (options : RequestInit) (w : World) :
  (email (with_bearerToken "" (api w)) = email (api w) /\
   password (with_bearerToken "" (api w)) = password (api w)) /\
  (email (api (snd (clearRefreshState w))) = email (api w) /\
   password (api (snd (clearRefreshState w))) = password (api w)) /\
  (email (api (snd (refreshAccessToken net w))) = email (api w) /\
   password (api (snd (refreshAccessToken net w))) = password (api w)) /\
  (email (api (snd (authenticatedFetch net url options w))) = email (api w) /\
   password (api (snd (authenticatedFetch net url options w))) = password (api w)).
Proof.
  split; [split; reflexivity|].
  split; [split; reflexivity|].
  split; [destruct (stable_refreshAccessToken net w) as (_ & He & Hp & _); split; assumption|].
  rewrite authenticatedFetch_run.
  pose proof (stable_ensureAuthenticated net w) as H1.
  destruct (ensureAuthenticated net w) as [[[]|e] w1]; cbn [fst snd] in H1;
    destruct H1 as (_ & E1 & P1 & _); [|split; assumption].
  cbv zeta.
  set (w2 := sent AtTarget url (withHeaders options (authHeaders (api w1)))
               (net (calls w1)) w1).
  assert (E2 : email (api w2) = email (api w)) by exact E1.
  assert (P2 : password (api w2) = password (api w)) by exact P1.
  destruct (outcome (net (calls w1))) as [response|e]; [|split; assumption].
  destruct (status response =? 401); [|split; assumption].
  set (w3 := withApi (with_bearerToken "" (api w2)) w2).
  assert (E3 : email (api w3) = email (api w)) by exact E1.
  assert (P3 : password (api w3) = password (api w)) by exact P1.
  pose proof (stable_refreshAccessToken net w3) as H4.
  destruct (refreshAccessToken net w3) as [[[]|e] w4]; cbn [fst snd] in H4;
    destruct H4 as (_ & E4 & P4 & _); rewrite E3 in E4; rewrite P3 in P4.
  - cbn [fst snd]. split; assumption.
  - pose proof (stable_ensureAuthenticated net w4) as H5.
    destruct (ensureAuthenticated net w4) as [[[]|e] w5]; cbn [fst snd] in H5;
      destruct H5 as (_ & E5 & P5 & _); cbn [fst snd];
      rewrite E4 in E5; rewrite P4 in P5; split; assumption.
  - cbn [fst snd]. split; assumption.
Qed.

(** ** The coordinator *)






Lemma receivedSession_applySession net (w1 w2 : World) (d : LoginResponse) (n : nat)
    (r : Response) :
  calls w1 = S n -> outcome (net n) = Resolved r -> ok r = true ->
  json r = Resolved d ->
  applySession d w1 = (Resolved tt, w2) ->
  receivedSession net w2 d (clock w1).
Proof.
  intros Hc Hx Hok Hj Hrun. rewrite applySession_run in Hrun.
  destruct (onTokenUpdate (api w1)) as [cb|] eqn:Hcb; cbv zeta in Hrun.
  - inversion Hrun as [[Hout Hw]]. unfold receivedSession, sessionDelay. simpl.
    rewrite Hcb. repeat split. exists n, r. repeat split; assumption.
  - inversion Hrun as [Hw]. unfold receivedSession, sessionDelay. simpl.
    rewrite Hcb. repeat split; try lia. exists n, r. repeat split; assumption.
Qed.

Lemma receivedSession_refresh net (w w' : World) :
  refreshAccessToken net w = (Resolved true, w') ->
  exists d t, receivedSession net w' d t.
Proof.
  intros Hrun.
  destruct (truthy (refreshToken (api w))) eqn:Ht;
    [|rewrite refreshAccessToken_none in Hrun by assumption; discriminate].
  rewrite (refreshAccessToken_run net w Ht) in Hrun. cbv zeta in Hrun.
  destruct (outcome (net (calls w))) as [resp|e] eqn:Hx; [|discriminate].
  destruct (ok resp) eqn:Hok; [|discriminate].
  destruct (json resp) as [d|e] eqn:Hj; [|discriminate].
  destruct (applySession d _) as [[[]|e] w2] eqn:Happ; [|discriminate].
  inversion Hrun; subst. eexists d, _.
  eapply receivedSession_applySession; [| | | |exact Happ]; try eassumption.
  reflexivity.
Qed.

Lemma receivedSession_login net em pw (w w' : World) (d : LoginResponse) :
  login net em pw w = (Resolved d, w') ->
  exists t, receivedSession net w' d t.
Proof.
  intros Hrun. rewrite login_run in Hrun. cbv zeta in Hrun.
  destruct (outcome (net (calls w))) as [resp|e] eqn:Hx; [|discriminate].
  destruct (ok resp) eqn:Hok; [|destruct (text resp); discriminate].
  destruct (json resp) as [d0|e] eqn:Hj; [|discriminate].
  destruct (applySession d0 _) as [[[]|e] w2] eqn:Happ; [|discriminate].
  inversion Hrun; subst. eexists.
  eapply receivedSession_applySession; [| | | |exact Happ]; try eassumption.
  reflexivity.
Qed.

(** Whether a session just received passes the check on return. *)
Lemma receivedSession_usable net (w : World) (d : LoginResponse) (t : Z) :
  receivedSession net w d t ->
  0 <= clock w ->
  isUsable (api w) (clock w) =
  truthy (access_token d) &&
  (sessionDelay (onTokenUpdate (api w)) d t + 60000 <=? expires_in d * 1000).
Proof.
  intros (_ & Hb & _ & He & Hc) Hnow.
  destruct (isUsable (api w) (clock w)) eqn:Hu.
  - apply isUsable_true_iff in Hu. destruct Hu as [Htok [e [He' [_ Hle]]]].
    rewrite He in He'. inversion He'; subst e. rewrite <- Hb, Htok. simpl.
    symmetry. apply Z.leb_le. lia.
  - symmetry. apply not_true_is_false. intros H.
    apply andb_true_iff in H. destruct H as [Htok Hle]. apply Z.leb_le in Hle.
    assert (isUsable (api w) (clock w) = true); [|congruence].
    apply isUsable_true_iff. rewrite Hb. split; [assumption|].
    eexists. split; [exact He|]. split; lia.
Qed.

(** C1, as amended.  When [ensureAuthenticated] returns without throwing,
    either it returned on the hot path -- nothing changed, and the state
    passes the check: token non-empty, [expiresAt] present, current time at
    least 60 seconds before it -- or the state holds the session received in
    the last exchange (a successful refresh or login): its access token, its
    refresh token, and receipt time plus [expires_in] seconds as [expiresAt].
    Such a state passes the check on return exactly when the received access
    token is non-empty and [expires_in] covers the 60 seconds of margin plus
    the time the callback took. *)
Theorem ensured_state net (w w' : World) :
  ensureAuthenticated net w = (Resolved tt, w') ->
  (w' = w /\ truthy (bearerToken (api w')) = true /\
   exists e, tokenExpiresAt (api w') = Some e /\ clock w' <= e - 60000) \/
  (exists d t,
      receivedSession net w' d t /\
      (0 <= clock w' ->
       isUsable (api w') (clock w') =
       truthy (access_token d) &&
       (sessionDelay (onTokenUpdate (api w')) d t + 60000 <=? expires_in d * 1000))).
Proof.
  intros Hrun. rewrite ensureAuthenticated_run in Hrun.
  destruct (isUsable (api w) (clock w)) eqn:Hu.
  - inversion Hrun; subst. left. split; [reflexivity|].
    apply isUsable_true_iff in Hu. destruct Hu as [Htok [e [He [_ Hle]]]].
    split; [assumption|]. exists e. split; assumption.
  - right.
    destruct (refreshAccessToken net w) as [[[]|e] w1] eqn:Href.
    + inversion Hrun; subst.
      destruct (receivedSession_refresh net w w' Href) as (d & t & Hrs).
      exists d, t. split; [assumption|]. apply (receivedSession_usable net); assumption.
    + rewrite loginFallback_run in Hrun.
      destruct (negb (truthy (email (api w1))) || negb (truthy (password (api w1))));
        [discriminate|].
      destruct (login net _ _ w1) as [[d|e] w2] eqn:Hlog; [|discriminate].
      inversion Hrun; subst.
      destruct (receivedSession_login net _ _ w1 w' d Hlog) as (t & Hrs).
      exists d, t. split; [assumption|]. apply (receivedSession_usable net); assumption.
    + discriminate.
Qed.

Lemma ensured_state_witness :
  let net := fun _ : nat => Scenario.success Scenario.hourSession in
  let w := Scenario.start Scenario.fresh 1000 in
  let w' := snd (ensureAuthenticated net w) in
  (w' = w /\ truthy (bearerToken (api w')) = true /\
   exists e, tokenExpiresAt (api w') = Some e /\ clock w' <= e - 60000) \/
  (exists d t,
      receivedSession net w' d t /\
      (0 <= clock w' ->
       isUsable (api w') (clock w') =
       truthy (access_token d) &&
       (sessionDelay (onTokenUpdate (api w')) d t + 60000 <=? expires_in d * 1000))).
Proof.
  cbv zeta.
  apply (ensured_state (fun _ => Scenario.success Scenario.hourSession)
           (Scenario.start Scenario.fresh 1000)).
  reflexivity.
Defined.

(** C1 as stated fails after a login: the server grants a token valid for 30
    seconds, [ensureAuthenticated] returns, and the current time (1000000)
    is only 30000 ms before [expiresAt] (1030000), not more than 60000. *)
Lemma short_lived_session_not_usable :
  let net := fun _ : nat => Scenario.success Scenario.shortSession in
  let out := ensureAuthenticated net (Scenario.start Scenario.fresh 1000000) in
  fst out = Resolved tt /\
  bearerToken (api (snd out)) = "at-2" /\
  tokenExpiresAt (api (snd out)) = Some 1030000 /\
  clock (snd out) = 1000000 /\
  ~ (clock (snd out) < 1030000 - 60000) /\
  isUsable (api (snd out)) (clock (snd out)) = false.
Proof.
  vm_compute. repeat split. intros H; discriminate H.
Qed.

(** * Further properties of the client *)

(** ** Stored tokens and the clock *)

(** X1.  Expiry is permanent: with the expiry instant left as it is, a token
    that [isTokenExpired] reports expired at one time is reported expired at
    every later time. *)
Theorem expiry_is_monotone (w w' : World) :
  tokenExpiresAt (api w') = tokenExpiresAt (api w) ->
  clock w <= clock w' ->
  fst (isTokenExpired w) = Resolved true ->
  fst (isTokenExpired w') = Resolved true.
Proof.
  intros He Hc. rewrite !isTokenExpired_run, He. cbn [fst].
  destruct (tokenExpiresAt (api w)) as [e|]; [|trivial].
  destruct (truthyTime (Some e)); [|trivial].
  intros H. injection H as H'.
  f_equal. apply Z.gtb_lt in H'. apply Z.gtb_lt. lia.
Qed.

Lemma expiry_is_monotone_witness :
  fst (isTokenExpired (Scenario.start Scenario.stored 50000)) = Resolved true.
Proof.
  apply (expiry_is_monotone (Scenario.start Scenario.stored 40001)
           (Scenario.start Scenario.stored 50000) eq_refl);
    [simpl; lia | reflexivity].
Defined.

(** X2.  A client constructed without an expiry instant (argument omitted,
    or [0]) never passes the check of [ensureAuthenticated], whatever bearer
    token it was given and whatever the time. *)
Theorem constructed_without_expiry_is_stale
    (host : string) (bearer em pw refresh : option string) (expiresAt : option Z)
    (w : World) :
  truthyTime expiresAt = false ->
  api w = constructor host bearer em pw refresh expiresAt ->
  haveValidToken w = (Resolved false, w).
Proof.
  intros Ht Ha. rewrite haveValidToken_run. unfold isUsable. rewrite Ha.
  simpl. rewrite Ht. simpl. rewrite andb_false_r. reflexivity.
Qed.

Lemma constructed_without_expiry_is_stale_witness :
  let w := Scenario.start
             (constructor Scenario.host (Some "at-1") None None (Some "rt-1") (Some 0)) 5 in
  haveValidToken w = (Resolved false, w).
Proof.
  cbv zeta.
  apply (constructed_without_expiry_is_stale Scenario.host (Some "at-1") None None
           (Some "rt-1") (Some 0)
           (Scenario.start
              (constructor Scenario.host (Some "at-1") None None (Some "rt-1") (Some 0)) 5)
           eq_refl eq_refl).
Defined.

(** X3.  Restoring a saved session with [setBearerToken(token, refreshToken,
    expiresAt)] makes the check of [ensureAuthenticated] succeed exactly
    when the token is non-empty and at least 60 seconds remain, whatever the
    instance held before. *)
Theorem restored_session_usable (a : CrossbillAPI) (token refresh : string) (e : Z)
    (w : World) :
  api w = setBearerToken token (Some refresh) (Some e) a ->
  0 <= clock w ->
  haveValidToken w = (Resolved (truthy token && (clock w + 60000 <=? e)), w).
Proof.
  intros Ha Hc. rewrite haveValidToken_run. f_equal. f_equal.
  destruct (isUsable (api w) (clock w)) eqn:Hu.
  - apply isUsable_true_iff in Hu. rewrite Ha in Hu. simpl in Hu.
    destruct Hu as [Ht [e' [He' [_ Hle]]]]. inversion He'; subst e'.
    rewrite Ht. symmetry. apply Z.leb_le. lia.
  - symmetry. apply not_true_is_false. intros H.
    apply andb_true_iff in H. destruct H as [Ht Hle]. apply Z.leb_le in Hle.
    assert (isUsable (api w) (clock w) = true); [|congruence].
    apply isUsable_true_iff. rewrite Ha. simpl. split; [assumption|].
    exists e. repeat split; lia.
Qed.

Lemma restored_session_usable_witness :
  let w := Scenario.start
             (setBearerToken "at-9" (Some "rt-9") (Some 200000) Scenario.blank) 100000 in
  haveValidToken w = (Resolved true, w).
Proof.
  cbv zeta.
  apply (restored_session_usable Scenario.blank "at-9" "rt-9" 200000
           (Scenario.start
              (setBearerToken "at-9" (Some "rt-9") (Some 200000) Scenario.blank) 100000)
           eq_refl).
  simpl. lia.
Defined.

(** ** The bearer header *)

(** The first call to the endpoint, as it enters the trace. *)
Lemma first_dispatch net (url : string) (options : RequestInit) (w w1 : World) :
  ensureAuthenticated net w = (Resolved tt, w1) ->
  exists rest,
    trace (snd (authenticatedFetch net url options w)) =
      (trace w1 ++ EvFetch AtTarget url (withHeaders options (authHeaders (api w1)))
                     (net (calls w1)) :: rest)%list.
Proof.
  intros H1. rewrite authenticatedFetch_run, H1. cbv zeta.
  set (ev := EvFetch AtTarget url (withHeaders options (authHeaders (api w1)))
               (net (calls w1))).
  set (w2 := sent AtTarget url (withHeaders options (authHeaders (api w1)))
               (net (calls w1)) w1).
  assert (T2 : trace w2 = (trace w1 ++ [ev])%list) by reflexivity.
  destruct (outcome (net (calls w1))) as [r1|e]; [|exists []; exact T2].
  destruct (status r1 =? 401); [|exists []; exact T2].
  set (w3 := withApi (with_bearerToken "" (api w2)) w2).
  pose proof (stable_refreshAccessToken net w3) as H4.
  destruct (refreshAccessToken net w3) as [[[]|e] w4]; cbn [fst snd] in H4;
    destruct H4 as (_ & _ & _ & _ & mid & T4 & _);
    change (trace w3) with (trace w2) in T4.
  - eexists. cbn [snd trace sent]. rewrite T4, T2, <- !app_assoc. reflexivity.
  - pose proof (stable_ensureAuthenticated net w4) as H5.
    destruct (ensureAuthenticated net w4) as [[[]|e] w5]; cbn [fst snd] in H5;
      destruct H5 as (_ & _ & _ & _ & mid' & T5 & _).
    + eexists. cbn [snd trace sent]. rewrite T5, T4, T2, <- !app_assoc. reflexivity.
    + eexists. cbn [snd]. rewrite T5, T4, T2, <- !app_assoc. reflexivity.
  - eexists. cbn [snd]. rewrite T4, T2, <- !app_assoc. reflexivity.
Qed.

(** X4.  [getAuthHeaders] returns the single property [Authorization:
    Bearer <token>] when the stored access token is non-empty and no
    property otherwise, and changes nothing.  Accordingly the first call
    [authenticatedFetch] makes to the endpoint, once [ensureAuthenticated]
    has succeeded, hands [fetch] the caller's method and body and a plain
    headers object in which [Authorization] is [Bearer <token>] for a
    non-empty stored token -- overriding a property of that name among the
    caller's -- and every other property is what the object spread copies
    from the caller's headers: the entries of a plain object, nothing of a
    [Headers] instance. *)
Theorem bearer_header net (url : string) (options : RequestInit) (w w1 : World) :
  ensureAuthenticated net w = (Resolved tt, w1) ->
  getAuthHeaders w1 =
    (Resolved (if truthy (bearerToken (api w1))
               then {[ "Authorization" := "Bearer " +:+ bearerToken (api w1) ]}
               else ∅), w1) /\
  exists m rest,
    trace (snd (authenticatedFetch net url options w)) =
      (trace w1 ++
       EvFetch AtTarget url
         {| method := method options; headers := HeadersRecord m; body := body options |}
         (net (calls w1)) :: rest)%list /\
    m !! "Authorization" =
      (if truthy (bearerToken (api w1))
       then Some ("Bearer " +:+ bearerToken (api w1))
       else spread (headers options) !! "Authorization") /\
    (forall k : string, k <> "Authorization" -> m !! k = spread (headers options) !! k).
Proof.
  intros H1. split; [apply getAuthHeaders_run|].
  destruct (first_dispatch net url options w w1 H1) as (rest & Ht).
  exists (authHeaders (api w1) ∪ spread (headers options)), rest.
  split; [exact Ht|]. unfold authHeaders.
  destruct (truthy (bearerToken (api w1))); split.
  - apply lookup_union_Some_l. apply lookup_singleton_eq.
  - intros k Hk. apply lookup_union_r. apply lookup_singleton_ne. congruence.
  - apply lookup_union_r. apply lookup_empty.
  - intros k Hk. apply lookup_union_r. apply lookup_empty.
Qed.

Lemma bearer_header_witness :
  let net := fun _ : nat => Scenario.answer 200 "OK" in
  let w := Scenario.start Scenario.stored 0 in
  let options := {| method := "GET";
                    headers := HeadersRecord {[ "Authorization" := "Basic abc";
                                                "Accept" := "application/json" ]};
                    body := NoBody |} in
  exists m rest,
    trace (snd (authenticatedFetch net "https://crossbill.example/api/v1/books/7"
                  options w)) =
      (trace w ++
       EvFetch AtTarget "https://crossbill.example/api/v1/books/7"
         {| method := "GET"; headers := HeadersRecord m; body := NoBody |}
         (net 0%nat) :: rest)%list /\
    m !! "Authorization" = Some "Bearer at-1" /\
    (forall k : string, k <> "Authorization" ->
       m !! k = ({[ "Authorization" := "Basic abc";
                    "Accept" := "application/json" ]} : gmap string string) !! k).
Proof.
  cbv zeta.
  destruct (proj2 (bearer_header (fun _ => Scenario.answer 200 "OK")
                     "https://crossbill.example/api/v1/books/7"
                     {| method := "GET";
                        headers := HeadersRecord {[ "Authorization" := "Basic abc";
                                                    "Accept" := "application/json" ]};
                        body := NoBody |}
                     (Scenario.start Scenario.stored 0) (Scenario.start Scenario.stored 0)
                     eq_refl))
    as (m & rest & Ht & Ha & Hk).
  exists m, rest. split; [exact Ht|]. split; [exact Ha | exact Hk].
Defined.

(** Headers passed as a [Headers] instance do not reach the endpoint: the
    spread copies nothing of them, and the call leaves with the bearer
    header alone. *)
Example headers_instance_is_dropped :
  let net := fun _ : nat => Scenario.answer 200 "OK" in
  let options := {| method := "GET";
                    headers := HeadersObject {[ "Accept" := "application/json" ]};
                    body := NoBody |} in
  trace (snd (authenticatedFetch net "https://crossbill.example/api/v1/books/7"
                options (Scenario.start Scenario.stored 0))) =
  [EvFetch AtTarget "https://crossbill.example/api/v1/books/7"
     {| method := "GET";
        headers := HeadersRecord ({[ "Authorization" := "Bearer at-1" ]} ∪ ∅);
        body := NoBody |}
     (net 0%nat)].
Proof.
  reflexivity.
Qed.

(** ** How many exchanges a call can make *)

Lemma calls_applySession d w : calls (snd (applySession d w)) = calls w.
Proof.
  rewrite applySession_run. destruct (onTokenUpdate (api w)); reflexivity.
Qed.

(** What a run of [refreshAccessToken] amounts to, seen from outside: it
    settles with a boolean; it made one exchange if a refresh token was
    stored and none otherwise; a [false] leaves no refresh token behind. *)
Lemma refreshAccessToken_summary net w :
  exists b,
    fst (refreshAccessToken net w) = Resolved b /\
    calls (snd (refreshAccessToken net w)) =
      (if truthy (refreshToken (api w)) then S (calls w) else calls w) /\
    (b = false -> truthy (refreshToken (api (snd (refreshAccessToken net w)))) = false).
Proof.
  destruct (truthy (refreshToken (api w))) eqn:Ht.
  - rewrite (refreshAccessToken_run net w Ht). cbv zeta.
    destruct (outcome (net (calls w))) as [resp|e];
      [|exists false; repeat split].
    destruct (ok resp); [|exists false; repeat split].
    destruct (json resp) as [d|e]; [|exists false; repeat split].
    pose proof (calls_applySession d
                  (sent AtRefresh (serverHost (api w) +:+ authRefreshPath)
                     (refreshInit (api w)) (net (calls w)) w)) as Hc.
    destruct (applySession d _) as [[[]|e] w2]; cbn [fst snd] in *.
    + exists true. repeat split; [exact Hc | discriminate].
    + exists false. repeat split. exact Hc.
  - rewrite refreshAccessToken_none by assumption. exists false.
    repeat split. intros _. exact Ht.
Qed.

Lemma calls_login net em pw w : calls (snd (login net em pw w)) = S (calls w).
Proof.
  rewrite login_run. cbv zeta.
  destruct (outcome (net (calls w))) as [resp|e]; [|reflexivity].
  destruct (ok resp).
  - destruct (json resp) as [d|e]; [|reflexivity].
    pose proof (calls_applySession d
                  (sent AtLogin (serverHost (api w) +:+ authLoginPath)
                     (loginInit em pw) (net (calls w)) w)) as Hc.
    destruct (applySession d _) as [[[]|e] w2]; exact Hc.
  - destruct (text resp); reflexivity.
Qed.

Lemma calls_loginFallback net w :
  (calls w <= calls (snd (loginFallback net w)) <= S (calls w))%nat.
Proof.
  rewrite loginFallback_run.
  destruct (negb (truthy (email (api w))) || negb (truthy (password (api w))));
    [simpl; lia|].
  pose proof (calls_login net (email (api w)) (password (api w)) w) as Hc.
  destruct (login net _ _ w) as [[d|e] w1]; cbn [snd] in *; lia.
Qed.

(** [ensureAuthenticated] makes at most two exchanges, and at most one when
    no refresh token is stored. *)
Lemma calls_ensureAuthenticated net w :
  (calls w <= calls (snd (ensureAuthenticated net w)) <=
   (if truthy (refreshToken (api w)) then 2 else 1) + calls w)%nat.
Proof.
  rewrite ensureAuthenticated_run.
  destruct (isUsable (api w) (clock w));
    [cbn [snd]; destruct (truthy (refreshToken (api w))); lia|].
  destruct (refreshAccessToken_summary net w) as (b & Hb & Hc & _).
  destruct (refreshAccessToken net w) as [[[]|e] w1]; cbn [fst snd] in *.
  - destruct (truthy (refreshToken (api w))); lia.
  - pose proof (calls_loginFallback net w1).
    destruct (truthy (refreshToken (api w))); lia.
  - destruct (truthy (refreshToken (api w))); lia.
Qed.

(** X5.  [refreshAccessToken] never throws: transport errors, unparsable
    bodies and a rejecting callback all end in a returned boolean.  It makes
    exactly one exchange when a refresh token is stored and none otherwise,
    and whenever it returns [false] no refresh token is left to try again. *)
Theorem refresh_never_throws net (w : World) :
  exists b,
    fst (refreshAccessToken net w) = Resolved b /\
    calls (snd (refreshAccessToken net w)) =
      (if truthy (refreshToken (api w)) then S (calls w) else calls w) /\
    (b = false -> refreshToken (api (snd (refreshAccessToken net w))) = "").
Proof.
  destruct (refreshAccessToken_summary net w) as (b & Hb & Hc & Hf).
  exists b. repeat split; try assumption.
  intros E. specialize (Hf E).
  destruct (refreshToken (api (snd (refreshAccessToken net w)))); [reflexivity | discriminate].
Qed.

(** X6.  The recovery cascade is bounded: one call of [ensureAuthenticated]
    makes at most two exchanges (a refresh and a login), and one call of
    [authenticatedFetch] at most six in all, counting the at most two calls
    to the protected endpoint. *)
Theorem exchanges_bounded net (url : string) (options : RequestInit) (w : World) :
  (calls w <= calls (snd (ensureAuthenticated net w)) <= calls w + 2)%nat /\
  (calls w <= calls (snd (authenticatedFetch net url options w)) <= calls w + 6)%nat.
Proof.
  split.
  - pose proof (calls_ensureAuthenticated net w).
    destruct (truthy (refreshToken (api w))); lia.
  - rewrite authenticatedFetch_run.
    assert (H1 : (calls w <= calls (snd (ensureAuthenticated net w)) <= calls w + 2)%nat)
      by (pose proof (calls_ensureAuthenticated net w);
          destruct (truthy (refreshToken (api w))); lia).
    destruct (ensureAuthenticated net w) as [[[]|e] w1]; cbn [snd] in H1;
      [|cbn [snd]; lia].
    cbv zeta.
    set (w2 := sent AtTarget url (withHeaders options (authHeaders (api w1)))
                 (net (calls w1)) w1).
    assert (C2 : calls w2 = S (calls w1)) by reflexivity.
    destruct (outcome (net (calls w1))) as [response|e]; [|cbn [snd]; lia].
    destruct (status response =? 401); [|cbn [snd]; lia].
    set (w3 := withApi (with_bearerToken "" (api w2)) w2).
    assert (C3 : calls w3 = S (calls w1)) by reflexivity.
    destruct (refreshAccessToken_summary net w3) as (b & Hb & Hc & Hf).
    assert (C4 : (calls w3 <= calls (snd (refreshAccessToken net w3)) <= S (calls w3))%nat)
      by (rewrite Hc; destruct (truthy (refreshToken (api w3))); lia).
    destruct (refreshAccessToken net w3) as [[[]|e] w4]; cbn [fst snd] in *.
    + unfold sent. cbn [calls]. lia.
    + assert (Hn : truthy (refreshToken (api w4)) = false) by (apply Hf; congruence).
      pose proof (calls_ensureAuthenticated net w4) as C5. rewrite Hn in C5.
      destruct (ensureAuthenticated net w4) as [[[]|e] w5]; cbn [snd] in *;
        unfold sent; cbn [calls]; lia.
    + lia.
Qed.

(** The bound of six is reached: the expired session is refreshed in vain,
    login succeeds, the endpoint answers 401, the new refresh token is
    refused too, login succeeds again, and the retry goes out. *)
Example six_exchanges :
  let net := fun n : nat =>
               match n with
               | 1%nat | 4%nat => Scenario.success Scenario.hourSession
               | 5%nat => Scenario.answer 200 "OK"
               | _ => Scenario.answer 401 "Unauthorized"
               end in
  let out := authenticatedFetch net "https://crossbill.example/api/v1/books?limit=1000"
               noOptions (Scenario.start Scenario.stored 90000) in
  fst out = outcome (Scenario.answer 200 "OK") /\
  calls (snd out) = 6%nat /\
  dispatches (trace (snd out)) = 2%nat.
Proof.
  vm_compute. repeat split.
Qed.

(** ** What the wrapper dispatches *)

(** X7.  When the authentication ahead of the request fails, the wrapper
    throws that same error and the protected endpoint is never called. *)
Theorem failed_authentication_aborts net (url : string) (options : RequestInit)
    (w w1 : World) (e : Exn) :
  ensureAuthenticated net w = (Rejected e, w1) ->
  authenticatedFetch net url options w = (Rejected e, w1) /\
  dispatches (trace w1) = dispatches (trace w).
Proof.
  intros H. rewrite authenticatedFetch_run, H. split; [reflexivity|].
  pose proof (stable_ensureAuthenticated net w) as Hs. rewrite H in Hs.
  exact (stable_dispatches _ _ Hs).
Qed.

Lemma failed_authentication_aborts_witness :
  let net := fun _ : nat => Scenario.success Scenario.hourSession in
  let w := Scenario.start Scenario.blank 0 in
  authenticatedFetch net "https://crossbill.example/api/v1/books/7" noOptions w
  = (Rejected NoCredentials, w).
Proof.
  cbv zeta.
  apply (proj1 (failed_authentication_aborts
                  (fun _ => Scenario.success Scenario.hourSession)
                  "https://crossbill.example/api/v1/books/7" noOptions
                  (Scenario.start Scenario.blank 0) (Scenario.start Scenario.blank 0)
                  NoCredentials eq_refl)).
Defined.

(** X8.  A response whose status is not 401 -- a 404 or a 500 as much as a
    200 -- is returned as it is after a single call to the endpoint: nothing
    is retried and the stored credentials are left as authentication left
    them. *)
Theorem other_statuses_pass_through net (url : string) (options : RequestInit)
    (w w1 : World) (r : Response) :
  ensureAuthenticated net w = (Resolved tt, w1) ->
  outcome (net (calls w1)) = Resolved r ->
  status r <> 401 ->
  authenticatedFetch net url options w =
  (Resolved r,
   sent AtTarget url (withHeaders options (authHeaders (api w1))) (net (calls w1)) w1).
Proof.
  intros H Hx Hs. rewrite authenticatedFetch_run, H. cbv zeta. rewrite Hx.
  apply Z.eqb_neq in Hs. rewrite Hs. reflexivity.
Qed.

Lemma other_statuses_pass_through_witness :
  let net := fun _ : nat => Scenario.answer 500 "Internal Server Error" in
  let w := Scenario.start Scenario.stored 0 in
  fst (authenticatedFetch net "https://crossbill.example/api/v1/books/7" noOptions w)
  = outcome (Scenario.answer 500 "Internal Server Error") /\
  api (snd (authenticatedFetch net "https://crossbill.example/api/v1/books/7" noOptions w))
  = api w.
Proof.
  cbv zeta.
  rewrite (other_statuses_pass_through
             (fun _ => Scenario.answer 500 "Internal Server Error")
             "https://crossbill.example/api/v1/books/7" noOptions
             (Scenario.start Scenario.stored 0) (Scenario.start Scenario.stored 0)
             {| status := 500; statusText := "Internal Server Error";
                text := Resolved ""; json := Rejected (Thrown "SyntaxError") |}
             eq_refl eq_refl ltac:(simpl; lia)).
  split; reflexivity.
Defined.

Lemma withHeaders_other (options : RequestInit) (a : CrossbillAPI) (k : string) :
  k <> "Authorization" ->
  spread (headers (withHeaders options (authHeaders a))) !! k
  = spread (headers options) !! k.
Proof.
  intros Hk. unfold withHeaders, authHeaders. cbn [headers spread].
  apply lookup_union_r.
  destruct (truthy (bearerToken a)); [|apply lookup_empty].
  apply lookup_singleton_ne. congruence.
Qed.

Lemma sameRequest_sent (url : string) (options : RequestInit) (a : CrossbillAPI)
    (x : Exchange) :
  sameRequest url options (EvFetch AtTarget url (withHeaders options (authHeaders a)) x).
Proof.
  cbn [sameRequest withHeaders method body headers]. repeat split.
  eexists. split; [reflexivity|].
  intros k Hk. apply (withHeaders_other options a k Hk).
Qed.

Lemma sameRequest_quiet (url : string) (options : RequestInit) (evs : list Event) :
  dispatches evs = 0%nat -> Forall (sameRequest url options) evs.
Proof.
  induction evs as [|ev evs IH]; intros H; constructor.
  - destruct ev as [[] u init x|]; simpl; trivial.
    unfold dispatches in H. simpl in H. discriminate.
  - apply IH. unfold dispatches in *. simpl in H.
    destruct (isDispatch ev); [discriminate | exact H].
Qed.

(** X9.  Whatever [authenticatedFetch] does, every call it makes to the
    protected endpoint, the retry included, repeats the caller's request:
    the same url, method and body, and as headers a plain object holding,
    except possibly for [Authorization], what the object spread copies from
    the caller's headers -- the entries of a plain object, and nothing of a
    [Headers] instance, whose entries are therefore not sent. *)
Theorem retry_repeats_request net (url : string) (options : RequestInit) (w : World) :
  exists evs,
    trace (snd (authenticatedFetch net url options w)) = (trace w ++ evs)%list /\
    Forall (sameRequest url options) evs.
Proof.
  rewrite authenticatedFetch_run.
  pose proof (stable_ensureAuthenticated net w) as H1.
  destruct (ensureAuthenticated net w) as [[[]|e] w1]; cbn [fst snd] in H1;
    destruct H1 as (_ & _ & _ & _ & before & T1 & B1);
    [|exists before; split; [exact T1 | apply sameRequest_quiet; exact B1]].
  cbv zeta.
  set (a1 := api w1). set (x1 := net (calls w1)).
  set (w2 := sent AtTarget url (withHeaders options (authHeaders a1)) x1 w1).
  assert (T2 : trace w2 =
               (trace w ++ before ++ [EvFetch AtTarget url
                                        (withHeaders options (authHeaders a1)) x1])%list)
    by (simpl; rewrite T1; symmetry; apply app_assoc).
  assert (F2 : Forall (sameRequest url options)
                 (before ++ [EvFetch AtTarget url
                               (withHeaders options (authHeaders a1)) x1]))
    by (apply Forall_app; split;
        [apply sameRequest_quiet; exact B1
        | constructor; [apply sameRequest_sent | constructor]]).
  destruct (outcome x1) as [r1|e]; [|eexists; split; [exact T2 | exact F2]].
  destruct (status r1 =? 401); [|eexists; split; [exact T2 | exact F2]].
  set (w3 := withApi (with_bearerToken "" (api w2)) w2).
  pose proof (stable_refreshAccessToken net w3) as H4.
  destruct (refreshAccessToken net w3) as [[[]|e] w4]; cbn [fst snd] in H4;
    destruct H4 as (_ & _ & _ & _ & mid & T4 & B4);
    change (trace w3) with (trace w2) in T4.
  - eexists. split.
    + unfold sent at 1. cbn [snd trace]. rewrite T4, T2, <- !app_assoc. reflexivity.
    + rewrite !app_assoc. apply Forall_app. split.
      * apply Forall_app. split; [exact F2 | apply sameRequest_quiet; exact B4].
      * constructor; [apply sameRequest_sent | constructor].
  - pose proof (stable_ensureAuthenticated net w4) as H5.
    destruct (ensureAuthenticated net w4) as [[[]|e] w5]; cbn [fst snd] in H5;
      destruct H5 as (_ & _ & _ & _ & mid' & T5 & B5).
    + eexists. split.
      * unfold sent at 1. cbn [snd trace].
        rewrite T5, T4, T2, <- !app_assoc. reflexivity.
      * rewrite !app_assoc. apply Forall_app. split.
        -- apply Forall_app. split.
           ++ apply Forall_app. split; [exact F2 | apply sameRequest_quiet; exact B4].
           ++ apply sameRequest_quiet; exact B5.
        -- constructor; [apply sameRequest_sent | constructor].
    + eexists. split.
      * cbn [snd]. rewrite T5, T4, T2, <- !app_assoc. reflexivity.
      * rewrite !app_assoc. apply Forall_app. split.
        -- apply Forall_app. split; [exact F2 | apply sameRequest_quiet; exact B4].
        -- apply sameRequest_quiet; exact B5.
  - eexists. split.
    + cbn [snd]. rewrite T4, T2, <- !app_assoc. reflexivity.
    + rewrite !app_assoc. apply Forall_app. split;
        [exact F2 | apply sameRequest_quiet; exact B4].
Qed.

(** ** Recovery from a 401 *)

(** X10.  A valid stored token is refused with 401, a refresh token is
    stored, and the refresh exchange delivers a session with a non-empty
    access token (the callback, if any, resolving): the wrapper then makes
    exactly three exchanges -- the call, the refresh, the retry -- never a
    login, the retry carries [Bearer <new access token>], and its outcome is
    the result. *)
Theorem retry_carries_refreshed_token net (url : string) (options : RequestInit)
    (w : World) (r1 r2 : Response) (d : LoginResponse) :
  let x1 := net (calls w) in
  let x2 := net (S (calls w)) in
  let x3 := net (S (S (calls w))) in
  let t := clock w + elapsed x1 + elapsed x2 in
  isUsable (api w) (clock w) = true ->
  outcome x1 = Resolved r1 -> status r1 = 401 ->
  truthy (refreshToken (api w)) = true ->
  outcome x2 = Resolved r2 -> ok r2 = true -> json r2 = Resolved d ->
  truthy (access_token d) = true ->
  callbackResolves (api w) d t ->
  let out := authenticatedFetch net url options w in
  exists init,
    fst out = outcome x3 /\
    trace (snd out) =
      (trace w ++
       [EvFetch AtTarget url (withHeaders options (authHeaders (api w))) x1;
        EvFetch AtRefresh (serverHost (api w) +:+ authRefreshPath) (refreshInit (api w)) x2]
       ++ notice (api w) d t ++ [EvFetch AtTarget url init x3])%list /\
    spread (headers init) !! "Authorization" = Some ("Bearer " +:+ access_token d) /\
    calls (snd out) = S (S (S (calls w))) /\
    bearerToken (api (snd out)) = access_token d /\
    refreshToken (api (snd out)) = refresh_token d /\
    tokenExpiresAt (api (snd out)) = Some (t + expires_in d * 1000).
Proof.
  intros x1 x2 x3 t Hu Hx1 H401 Hrt Hx2 Hok Hj Hat Hcb out. subst out.
  rewrite authenticatedFetch_run, ensureAuthenticated_run, Hu. cbv zeta.
  fold x1. rewrite Hx1. apply Z.eqb_eq in H401. rewrite H401.
  set (w2 := sent AtTarget url (withHeaders options (authHeaders (api w))) x1 w).
  set (w3 := withApi (with_bearerToken "" (api w2)) w2).
  assert (Hrt3 : truthy (refreshToken (api w3)) = true) by exact Hrt.
  rewrite (refreshAccessToken_run net w3 Hrt3). cbv zeta.
  change (net (calls w3)) with x2. rewrite Hx2, Hok, Hj.
  rewrite applySession_run.
  unfold callbackResolves in Hcb. unfold notice.
  change (onTokenUpdate (api (sent AtRefresh (serverHost (api w3) +:+ authRefreshPath)
                                (refreshInit (api w3)) x2 w3)))
    with (onTokenUpdate (api w)).
  change (clock (sent AtRefresh (serverHost (api w3) +:+ authRefreshPath)
                   (refreshInit (api w3)) x2 w3)) with t.
  destruct (onTokenUpdate (api w)) as [cb|]; cbv zeta.
  - rewrite Hcb. cbn [fst snd].
    eexists. split; [reflexivity|]. split.
    + simpl. rewrite <- !app_assoc. reflexivity.
    + split.
      * unfold withHeaders, authHeaders. cbn. rewrite Hat.
        apply lookup_union_Some_l. apply lookup_singleton_eq.
      * repeat split.
  - cbn [fst snd].
    eexists. split; [reflexivity|]. split.
    + simpl. rewrite <- !app_assoc. reflexivity.
    + split.
      * unfold withHeaders, authHeaders. cbn. rewrite Hat.
        apply lookup_union_Some_l. apply lookup_singleton_eq.
      * repeat split.
Qed.

Lemma retry_carries_refreshed_token_witness :
  let net := fun n : nat =>
               match n with
               | 0%nat => Scenario.answer 401 "Unauthorized"
               | 1%nat => Scenario.success Scenario.hourSession
               | _ => Scenario.answer 200 "OK"
               end in
  let w := Scenario.start (setOnTokenUpdate Scenario.saving Scenario.stored) 0 in
  let out := authenticatedFetch net "https://crossbill.example/api/v1/books/7" noOptions w in
  exists init,
    fst out = outcome (Scenario.answer 200 "OK") /\
    trace (snd out) =
      (trace w ++
       [EvFetch AtTarget "https://crossbill.example/api/v1/books/7"
          (withHeaders noOptions (authHeaders (api w))) (net 0%nat);
        EvFetch AtRefresh (serverHost (api w) +:+ authRefreshPath) (refreshInit (api w))
          (net 1%nat)]
       ++ notice (api w) Scenario.hourSession 0
       ++ [EvFetch AtTarget "https://crossbill.example/api/v1/books/7" init (net 2%nat)])%list /\
    spread (headers init) !! "Authorization" = Some "Bearer at-2" /\
    calls (snd out) = 3%nat /\
    bearerToken (api (snd out)) = "at-2" /\
    refreshToken (api (snd out)) = "rt-2" /\
    tokenExpiresAt (api (snd out)) = Some 3600000.
Proof.
  cbv zeta.
  apply (retry_carries_refreshed_token
           (fun n : nat =>
              match n with
              | 0%nat => Scenario.answer 401 "Unauthorized"
              | 1%nat => Scenario.success Scenario.hourSession
              | _ => Scenario.answer 200 "OK"
              end)
           "https://crossbill.example/api/v1/books/7" noOptions
           (Scenario.start (setOnTokenUpdate Scenario.saving Scenario.stored) 0)
           {| status := 401; statusText := "Unauthorized"; text := Resolved "";
              json := Rejected (Thrown "SyntaxError") |}
           {| status := 200; statusText := "OK"; text := Resolved "";
              json := Resolved Scenario.hourSession |}
           Scenario.hourSession);
    reflexivity.
Defined.

(** X11.  A valid stored token is refused with 401 while no refresh token is
    stored and the email or the password is missing: the wrapper does not
    hand the 401 response back but throws the missing-credentials error,
    after that single call, leaving the access token emptied. *)
Theorem unauthorized_without_fallback net (url : string) (options : RequestInit)
    (w : World) (r1 : Response) :
  isUsable (api w) (clock w) = true ->
  outcome (net (calls w)) = Resolved r1 -> status r1 = 401 ->
  truthy (refreshToken (api w)) = false ->
  truthy (email (api w)) = false \/ truthy (password (api w)) = false ->
  authenticatedFetch net url options w =
  (Rejected NoCredentials,
   withApi (with_bearerToken "" (api w))
     (sent AtTarget url (withHeaders options (authHeaders (api w))) (net (calls w)) w)).
Proof.
  intros Hu Hx1 H401 Hrt Hc.
  rewrite authenticatedFetch_run, ensureAuthenticated_run, Hu. cbv zeta.
  rewrite Hx1. apply Z.eqb_eq in H401. rewrite H401.
  set (w3 := withApi _ _).
  assert (Hrt3 : truthy (refreshToken (api w3)) = false) by exact Hrt.
  rewrite (refreshAccessToken_none net w3 Hrt3).
  rewrite ensureAuthenticated_run.
  assert (Hu3 : isUsable (api w3) (clock w3) = false) by reflexivity.
  rewrite Hu3, (refreshAccessToken_none net w3 Hrt3), loginFallback_run.
  change (email (api w3)) with (email (api w)).
  change (password (api w3)) with (password (api w)).
  destruct Hc as [Hc|Hc]; rewrite Hc; simpl; [|rewrite orb_true_r]; reflexivity.
Qed.

Lemma unauthorized_without_fallback_witness :
  let net := fun _ : nat => Scenario.answer 401 "Unauthorized" in
  let w := Scenario.start
             (setBearerToken "at-0" None (Some 500000) Scenario.blank) 1000 in
  fst (authenticatedFetch net "https://crossbill.example/api/v1/books/7" noOptions w)
  = Rejected NoCredentials /\
  bearerToken
    (api (snd (authenticatedFetch net "https://crossbill.example/api/v1/books/7"
                 noOptions w))) = "" /\
  calls (snd (authenticatedFetch net "https://crossbill.example/api/v1/books/7"
                noOptions w)) = 1%nat.
Proof.
  cbv zeta.
  rewrite (unauthorized_without_fallback
             (fun _ => Scenario.answer 401 "Unauthorized")
             "https://crossbill.example/api/v1/books/7" noOptions
             (Scenario.start
                (setBearerToken "at-0" None (Some 500000) Scenario.blank) 1000)
             {| status := 401; statusText := "Unauthorized"; text := Resolved "";
                json := Rejected (Thrown "SyntaxError") |}
             eq_refl eq_refl eq_refl eq_refl (or_introl eq_refl)).
  repeat split.
Defined.

(** ** Which exchanges authentication makes *)

Lemma logins_app (t1 t2 : list Event) :
  logins (t1 ++ t2) = (logins t1 + logins t2)%nat.
Proof. unfold logins. rewrite List.filter_app, length_app. reflexivity. Qed.

Lemma refreshes_app (t1 t2 : list Event) :
  refreshes (t1 ++ t2) = (refreshes t1 + refreshes t2)%nat.
Proof. unfold refreshes. rewrite List.filter_app, length_app. reflexivity. Qed.

Lemma notice_counts (a : CrossbillAPI) (d : LoginResponse) (t : Z) :
  logins (notice a d t) = 0%nat /\ refreshes (notice a d t) = 0%nat /\
  dispatches (notice a d t) = 0%nat.
Proof. unfold notice. destruct (onTokenUpdate a); repeat split. Qed.

(** Storing a session whose callback resolves. *)
Lemma applySession_resolves (d : LoginResponse) (w : World) :
  callbackResolves (api w) d (clock w) ->
  applySession d w =
  (Resolved tt,
   {| api := applied d (clock w) (api w);
      clock := clock w + sessionDelay (onTokenUpdate (api w)) d (clock w);
      calls := calls w;
      trace := trace w ++ notice (api w) d (clock w) |}).
Proof.
  intros Hcb. rewrite applySession_run.
  unfold callbackResolves, notice, sessionDelay in *.
  destruct (onTokenUpdate (api w)) as [cb|]; cbv zeta.
  - rewrite Hcb. reflexivity.
  - unfold withApi. rewrite Z.add_0_r, app_nil_r. reflexivity.
Qed.

(** X12.  The stored token does not pass the check, a refresh token is
    stored, and the refresh exchange delivers a session (the callback, if
    any, resolving): [ensureAuthenticated] returns after that one exchange,
    the session stored, and no login is made. *)
Theorem refresh_spares_login net (w : World) (r : Response) (d : LoginResponse) :
  let x := net (calls w) in
  let t := clock w + elapsed x in
  isUsable (api w) (clock w) = false ->
  truthy (refreshToken (api w)) = true ->
  outcome x = Resolved r -> ok r = true -> json r = Resolved d ->
  callbackResolves (api w) d t ->
  let out := ensureAuthenticated net w in
  fst out = Resolved tt /\
  trace (snd out) =
    (trace w ++ [EvFetch AtRefresh (serverHost (api w) +:+ authRefreshPath)
                   (refreshInit (api w)) x] ++ notice (api w) d t)%list /\
  calls (snd out) = S (calls w) /\
  logins (trace (snd out)) = logins (trace w) /\
  api (snd out) = applied d t (api w).
Proof.
  intros x t Hu Hrt Hx Hok Hj Hcb out. subst out.
  rewrite ensureAuthenticated_run, Hu, (refreshAccessToken_run net w Hrt). cbv zeta.
  fold x. rewrite Hx, Hok, Hj.
  rewrite applySession_resolves by exact Hcb. cbn [fst snd trace calls api].
  unfold sent. cbn [trace calls api clock]. fold t.
  repeat split.
  - rewrite <- app_assoc. reflexivity.
  - rewrite <- app_assoc, !logins_app.
    destruct (notice_counts (api w) d t) as (Hl & _). rewrite Hl.
    unfold logins at 2. simpl. lia.
Qed.

Lemma refresh_spares_login_witness :
  let net := fun _ : nat => Scenario.success Scenario.hourSession in
  let w := Scenario.start Scenario.stored 90000 in
  fst (ensureAuthenticated net w) = Resolved tt /\
  calls (snd (ensureAuthenticated net w)) = 1%nat /\
  logins (trace (snd (ensureAuthenticated net w))) = 0%nat.
Proof.
  cbv zeta.
  destruct (refresh_spares_login (fun _ => Scenario.success Scenario.hourSession)
              (Scenario.start Scenario.stored 90000)
              {| status := 200; statusText := "OK"; text := Resolved "";
                 json := Resolved Scenario.hourSession |}
              Scenario.hourSession eq_refl eq_refl eq_refl eq_refl eq_refl I)
    as (H1 & _ & H3 & H4 & _).
  repeat split; assumption.
Defined.

Lemma login_trace net em pw w :
  exists rest,
    trace (snd (login net em pw w)) =
      (trace w ++ [EvFetch AtLogin (serverHost (api w) +:+ authLoginPath)
                     (loginInit em pw) (net (calls w))] ++ rest)%list /\
    logins rest = 0%nat /\ refreshes rest = 0%nat.
Proof.
  rewrite login_run. cbv zeta.
  destruct (outcome (net (calls w))) as [resp|e];
    [|exists []; repeat split].
  destruct (ok resp).
  - destruct (json resp) as [d|e]; [|exists []; repeat split].
    rewrite applySession_run. cbn [api sent clock trace].
    destruct (onTokenUpdate (api w)) as [cb|]; cbv zeta.
    + destruct (cb_outcome _) as [[]|e]; cbn [snd trace];
        (eexists; split; [rewrite <- app_assoc; reflexivity | split; reflexivity]).
    + exists []. repeat split.
  - destruct (text resp); exists []; repeat split.
Qed.

(** X13.  The stored token does not pass the check and the refresh exchange
    fails (transport error, non-success status or unparsable body) while
    email and password are configured: [ensureAuthenticated] goes on to a
    login with the stored email and password, on the instance with its
    refresh state cleared, and ends as that login ends.  In all, one refresh
    exchange and one login exchange are made. *)
Theorem failed_refresh_falls_back_to_login net (w : World) :
  let w1 := withApi (cleared (api w))
              (sent AtRefresh (serverHost (api w) +:+ authRefreshPath)
                 (refreshInit (api w)) (net (calls w)) w) in
  isUsable (api w) (clock w) = false ->
  truthy (refreshToken (api w)) = true ->
  exchangeFailed (net (calls w)) = true ->
  truthy (email (api w)) = true -> truthy (password (api w)) = true ->
  let out := ensureAuthenticated net w in
  fst out = match fst (login net (email (api w)) (password (api w)) w1) with
            | Resolved _ => Resolved tt
            | Rejected e => Rejected e
            end /\
  snd out = snd (login net (email (api w)) (password (api w)) w1) /\
  calls (snd out) = S (S (calls w)) /\
  refreshes (trace (snd out)) = S (refreshes (trace w)) /\
  logins (trace (snd out)) = S (logins (trace w)).
Proof.
  intros w1 Hu Hrt Hx He Hp out. subst out.
  assert (Href : refreshAccessToken net w = (Resolved false, w1)).
  { rewrite (refreshAccessToken_run net w Hrt). cbv zeta. unfold exchangeFailed in Hx.
    destruct (outcome (net (calls w))) as [resp|e]; [|reflexivity].
    destruct (ok resp); [|reflexivity].
    destruct (json resp); [discriminate | reflexivity]. }
  rewrite ensureAuthenticated_run, Hu, Href, loginFallback_run.
  change (email (api w1)) with (email (api w)).
  change (password (api w1)) with (password (api w)).
  rewrite He, Hp. cbn [negb orb].
  pose proof (calls_login net (email (api w)) (password (api w)) w1) as Hc.
  destruct (login_trace net (email (api w)) (password (api w)) w1)
    as (rest & Ht & Hl & Hr).
  destruct (login net (email (api w)) (password (api w)) w1) as [[d|e] w2];
    cbn [fst snd] in *;
    (split; [reflexivity|]); (split; [reflexivity|]);
    (split; [exact Hc|]);
    rewrite Ht; cbn [trace w1 withApi sent];
    rewrite !refreshes_app, !logins_app, Hl, Hr;
    unfold refreshes at 2 3, logins at 2 3; simpl; split; lia.
Qed.

Lemma failed_refresh_falls_back_to_login_witness :
  let net := fun n : nat =>
               match n with
               | 0%nat => Scenario.answer 401 "Unauthorized"
               | _ => Scenario.success Scenario.hourSession
               end in
  let w := Scenario.start Scenario.stored 90000 in
  fst (ensureAuthenticated net w) = Resolved tt /\
  calls (snd (ensureAuthenticated net w)) = 2%nat /\
  refreshes (trace (snd (ensureAuthenticated net w))) = 1%nat /\
  logins (trace (snd (ensureAuthenticated net w))) = 1%nat.
Proof.
  cbv zeta.
  destruct (failed_refresh_falls_back_to_login
              (fun n : nat =>
                 match n with
                 | 0%nat => Scenario.answer 401 "Unauthorized"
                 | _ => Scenario.success Scenario.hourSession
                 end)
              (Scenario.start Scenario.stored 90000)
              eq_refl eq_refl eq_refl eq_refl eq_refl)
    as (H1 & _ & H3 & H4 & H5).
  repeat split; assumption.
Defined.



(** Past the margin the same call does go to the network: here the clock
    stands 59 seconds before the expiry instant. *)
Example login_then_expired :
  let net := fun _ : nat => Scenario.success Scenario.hourSession in
  let w := Scenario.start (setOnTokenUpdate Scenario.saving Scenario.fresh) 1000 in
  let w' := snd (login net "reader@example.org" "secret" w) in
  let later := {| api := api w'; clock := 3542000; calls := calls w'; trace := trace w' |} in
  calls (snd (ensureAuthenticated net later)) = S (calls later).
Proof.
  vm_compute. reflexivity.
Qed.

(** X15 is [login_rejected_error] above: a login refused by the server
    throws the login failure carrying the response status and the body
    text, or the status text when the body is empty. *)
Lemma login_rejected_error_witness :
  fst (login (fun _ => Scenario.answer 403 "Forbidden") "reader@example.org" "wrong"
         (Scenario.start Scenario.fresh 0))
  = Rejected (LoginFailed 403 "Forbidden").
Proof.
  apply (login_rejected_error (fun _ => Scenario.answer 403 "Forbidden")
           "reader@example.org" "wrong" (Scenario.start Scenario.fresh 0)
           {| status := 403; statusText := "Forbidden"; text := Resolved "";
              json := Rejected (Thrown "SyntaxError") |} "" eq_refl eq_refl eq_refl).
Defined.

(** What a returned response is: the outcome of the last event, a call to
    the endpoint; and a returned 401 comes from a second call. *)
Lemma returned_response net (url : string) (options : RequestInit) (w w' : World)
    (r : Response) :
  authenticatedFetch net url options w = (Resolved r, w') ->
  (exists t init x,
      trace w' = (t ++ [EvFetch AtTarget url init x])%list /\ outcome x = Resolved r) /\
  (status r = 401 -> dispatches (trace w') = (dispatches (trace w) + 2)%nat).
Proof.
  rewrite authenticatedFetch_run.
  pose proof (stable_ensureAuthenticated net w) as H1.
  apply stable_dispatches in H1.
  destruct (ensureAuthenticated net w) as [[[]|e] w1]; cbn [snd] in H1; [|discriminate].
  cbv zeta.
  destruct (outcome (net (calls w1))) as [r1|e] eqn:Hx1; [|discriminate].
  destruct (status r1 =? 401) eqn:H401.
  - match goal with
    | |- context [refreshAccessToken net ?w0] =>
        set (w3 := w0); pose proof (stable_refreshAccessToken net w3) as H4
    end.
    apply stable_dispatches in H4.
    assert (D3 : dispatches (trace w3) = S (dispatches (trace w)))
      by (unfold w3; cbn [trace withApi]; rewrite dispatches_sent_target; congruence).
    destruct (refreshAccessToken net w3) as [[[]|e] w4]; cbn [snd] in H4;
      [| |discriminate].
    + intros H. injection H as Hr Hw. subst w'. split.
      * eexists _, _, _. split; [reflexivity | exact Hr].
      * intros _. rewrite dispatches_sent_target. lia.
    + pose proof (stable_ensureAuthenticated net w4) as H5.
      apply stable_dispatches in H5.
      destruct (ensureAuthenticated net w4) as [[[]|e] w5]; cbn [snd] in H5;
        [|discriminate].
      intros H. injection H as Hr Hw. subst w'. split.
      * eexists _, _, _. split; [reflexivity | exact Hr].
      * intros _. rewrite dispatches_sent_target. lia.
  - intros H. injection H as Hr Hw. subst w' r1. split.
    + eexists _, _, _. split; [reflexivity | exact Hx1].
    + intros E. apply Z.eqb_neq in H401. contradiction.
Qed.

(** X16.  A response returned by [authenticatedFetch] is the outcome of the
    last thing it did, a call to the protected endpoint; and when the
    returned response has status 401, the endpoint was called twice: a first
    401 is never handed back without a retry. *)
Theorem response_comes_from_last_dispatch net (url : string) (options : RequestInit)
    (w w' : World) (r : Response) :
  authenticatedFetch net url options w = (Resolved r, w') ->
  (exists t init x,
      trace w' = (t ++ [EvFetch AtTarget url init x])%list /\ outcome x = Resolved r) /\
  (status r = 401 -> dispatches (trace w') = (dispatches (trace w) + 2)%nat).
Proof. apply returned_response. Qed.

Lemma response_comes_from_last_dispatch_witness :
  let net := fun n : nat =>
               match n with
               | 1%nat => Scenario.success Scenario.hourSession
               | _ => Scenario.answer 401 "Unauthorized"
               end in
  let w := Scenario.start Scenario.stored 0 in
  dispatches (trace (snd (authenticatedFetch net
                            "https://crossbill.example/api/v1/books/7" noOptions w)))
  = 2%nat.
Proof.
  cbv zeta.
  apply (proj2 (response_comes_from_last_dispatch
                  (fun n : nat =>
                     match n with
                     | 1%nat => Scenario.success Scenario.hourSession
                     | _ => Scenario.answer 401 "Unauthorized"
                     end)
                  "https://crossbill.example/api/v1/books/7" noOptions
                  (Scenario.start Scenario.stored 0) _
                  {| status := 401; statusText := "Unauthorized"; text := Resolved "";
                     json := Rejected (Thrown "SyntaxError") |}
                  eq_refl)).
  reflexivity.
Defined.

(** ** The data endpoints *)

Lemma getBooks_run net (B : Type) (booksOf : Response -> Settled B) (w : World) :
  getBooks net B booksOf w =
  match authenticatedFetch net (serverHost (api w) +:+ booksPath) noOptions w with
  | (Resolved r, w1) =>
      if ok r then (booksOf r, w1)
      else (Rejected (Thrown ("Failed to fetch books: " +:+ statusText r)), w1)
  | (Rejected e, w1) => (Rejected e, w1)
  end.
Proof.
  unfold getBooks, failure, bind, this, throw, await.
  destruct (authenticatedFetch net _ noOptions w) as [[r|e] w1]; [|reflexivity].
  destruct (ok r); reflexivity.
Qed.

Lemma getBookDetails_run net (D : Type) (detailsOf : Response -> Settled D)
    (showNumber : Z -> string) (bookId : Z) (w : World) :
  getBookDetails net D detailsOf showNumber bookId w =
  match authenticatedFetch net
          (serverHost (api w) +:+ bookPathPrefix +:+ showNumber bookId) noOptions w with
  | (Resolved r, w1) =>
      if ok r then (detailsOf r, w1)
      else (Rejected (Thrown ("Failed to fetch book details: " +:+ statusText r)), w1)
  | (Rejected e, w1) => (Rejected e, w1)
  end.
Proof.
  unfold getBookDetails, failure, bind, this, throw, await.
  destruct (authenticatedFetch net _ noOptions w) as [[r|e] w1]; [|reflexivity].
  destruct (ok r); reflexivity.
Qed.

(** X17.  [getBooks] has no effect beyond those of the wrapper it calls on
    [<serverHost>/api/v1/books?limit=1000].  An error of the wrapper is
    thrown on as it is; a response outside 200-299 (a second 401 included)
    is turned into the error "Failed to fetch books: <status text>" without
    the body being read; and a value is returned only when the last
    exchange made was a call to that url answered within 200-299, the value
    being that response's body. *)
Theorem getBooks_outcome net (B : Type) (booksOf : Response -> Settled B) (w : World) :
  let url := serverHost (api w) +:+ booksPath in
  let inner := authenticatedFetch net url noOptions w in
  let out := getBooks net B booksOf w in
  snd out = snd inner /\
  (forall e, fst inner = Rejected e -> fst out = Rejected e) /\
  (forall r, fst inner = Resolved r -> ok r = false ->
     fst out = Rejected (Thrown ("Failed to fetch books: " +:+ statusText r))) /\
  (forall b, fst out = Resolved b ->
     exists t init x r,
       trace (snd out) = (t ++ [EvFetch AtTarget url init x])%list /\
       outcome x = Resolved r /\ ok r = true /\ booksOf r = Resolved b).
Proof.
  cbv zeta. rewrite getBooks_run.
  destruct (authenticatedFetch net _ noOptions w) as [[r|e] w1] eqn:Hin;
    cbn [fst snd].
  - destruct (ok r) eqn:Hok; cbn [fst snd].
    + split; [reflexivity|]. split; [discriminate|]. split.
      * intros r' Hr' Hf. injection Hr' as <-. congruence.
      * intros b Hb.
        destruct (returned_response net _ noOptions w w1 r Hin)
          as [(t & init & x & Ht & Hx) _].
        exists t, init, x, r. repeat split; assumption.
    + split; [reflexivity|]. split; [discriminate|]. split.
      * intros r' Hr' _. injection Hr' as <-. reflexivity.
      * discriminate.
  - split; [reflexivity|]. split; [intros e' He'; congruence|].
    split; discriminate.
Qed.

(** X18.  [getBookDetails(bookId)] behaves in the same way on
    [<serverHost>/api/v1/books/<bookId>]: no effect beyond the wrapper's,
    the wrapper's errors thrown on, "Failed to fetch book details: <status
    text>" on a response outside 200-299, and a value only from the body of
    a last call to that url answered within 200-299. *)
Theorem getBookDetails_outcome net (D : Type) (detailsOf : Response -> Settled D)
    (showNumber : Z -> string) (bookId : Z) (w : World) :
  let url := serverHost (api w) +:+ bookPathPrefix +:+ showNumber bookId in
  let inner := authenticatedFetch net url noOptions w in
  let out := getBookDetails net D detailsOf showNumber bookId w in
  snd out = snd inner /\
  (forall e, fst inner = Rejected e -> fst out = Rejected e) /\
  (forall r, fst inner = Resolved r -> ok r = false ->
     fst out = Rejected (Thrown ("Failed to fetch book details: " +:+ statusText r))) /\
  (forall v, fst out = Resolved v ->
     exists t init x r,
       trace (snd out) = (t ++ [EvFetch AtTarget url init x])%list /\
       outcome x = Resolved r /\ ok r = true /\ detailsOf r = Resolved v).
Proof.
  cbv zeta. rewrite getBookDetails_run.
  destruct (authenticatedFetch net _ noOptions w) as [[r|e] w1] eqn:Hin;
    cbn [fst snd].
  - destruct (ok r) eqn:Hok; cbn [fst snd].
    + split; [reflexivity|]. split; [discriminate|]. split.
      * intros r' Hr' Hf. injection Hr' as <-. congruence.
      * intros v Hv.
        destruct (returned_response net _ noOptions w w1 r Hin)
          as [(t & init & x & Ht & Hx) _].
        exists t, init, x, r. repeat split; assumption.
    + split; [reflexivity|]. split; [discriminate|]. split.
      * intros r' Hr' _. injection Hr' as <-. reflexivity.
      * discriminate.
  - split; [reflexivity|]. split; [intros e' He'; congruence|].
    split; discriminate.
Qed.

(** A library that keeps answering 401: the books are not delivered, the
    caller gets the error built from the second 401. *)
Example getBooks_unauthorized :
  let net := fun n : nat =>
               match n with
               | 1%nat => Scenario.success Scenario.hourSession
               | _ => Scenario.answer 401 "Unauthorized"
               end in
  fst (getBooks net (list string) (fun _ => Resolved ["Walden"])
         (Scenario.start Scenario.stored 0))
  = Rejected (Thrown "Failed to fetch books: Unauthorized").
Proof.
  vm_compute. reflexivity.
Qed.

(** ** Configuration is never touched *)

(** X19.  No method changes the configured server or the registered
    callback, and authentication on its own -- [login],
    [ensureAuthenticated] -- changes neither email nor password and never
    calls the protected endpoint. *)
Theorem configuration_is_kept net (url : string) (options : RequestInit)
    (em pw : string) (w : World) :
  stable w (snd (login net em pw w)) /\
  stable w (snd (ensureAuthenticated net w)) /\
  serverHost (api (snd (authenticatedFetch net url options w))) = serverHost (api w) /\
  onTokenUpdate (api (snd (authenticatedFetch net url options w))) = onTokenUpdate (api w).
Proof.
  split; [apply stable_login|]. split; [apply stable_ensureAuthenticated|].
  rewrite authenticatedFetch_run.
  pose proof (stable_ensureAuthenticated net w) as H1.
  destruct (ensureAuthenticated net w) as [[[]|e] w1]; cbn [fst snd] in H1;
    destruct H1 as (S1 & _ & _ & C1 & _); [|split; assumption].
  cbv zeta.
  set (w2 := sent AtTarget url (withHeaders options (authHeaders (api w1)))
               (net (calls w1)) w1).
  destruct (outcome (net (calls w1))) as [response|e]; [|split; assumption].
  destruct (status response =? 401); [|split; assumption].
  set (w3 := withApi (with_bearerToken "" (api w2)) w2).
  assert (S3 : serverHost (api w3) = serverHost (api w)) by exact S1.
  assert (C3 : onTokenUpdate (api w3) = onTokenUpdate (api w)) by exact C1.
  pose proof (stable_refreshAccessToken net w3) as H4.
  destruct (refreshAccessToken net w3) as [[[]|e] w4]; cbn [fst snd] in H4;
    destruct H4 as (S4 & _ & _ & C4 & _); rewrite S3 in S4; rewrite C3 in C4.
  - cbn [fst snd]. split; assumption.
  - pose proof (stable_ensureAuthenticated net w4) as H5.
    destruct (ensureAuthenticated net w4) as [[[]|e] w5]; cbn [fst snd] in H5;
      destruct H5 as (S5 & _ & _ & C5 & _); cbn [fst snd];
      rewrite S4 in S5; rewrite C4 in C5; split; assumption.
  - cbn [fst snd]. split; assumption.
Qed.

(** ** Where the secrets go *)

Lemma delivered_mono (p q : list Event) (d : LoginResponse) :
  delivered p d -> delivered (p ++ q) d.
Proof.
  intros (site & u & init & x & r & Hin & H). exists site, u, init, x, r.
  split; [apply in_or_app; left; exact Hin | exact H].
Qed.

Lemma knownBearer_mono a0 (p q : list Event) (s : string) :
  knownBearer a0 p s -> knownBearer a0 (p ++ q) s.
Proof.
  intros [H|(d & Hd & H)]; [left; exact H | right; exists d; split;
                                            [apply delivered_mono; exact Hd | exact H]].
Qed.

Lemma knownRefresh_mono a0 (p q : list Event) (s : string) :
  knownRefresh a0 p s -> knownRefresh a0 (p ++ q) s.
Proof.
  intros [H|(d & Hd & H)]; [left; exact H | right; exists d; split;
                                            [apply delivered_mono; exact Hd | exact H]].
Qed.

Lemma tracked_mono a0 (p q : list Event) (a : CrossbillAPI) :
  tracked a0 p a -> tracked a0 (p ++ q) a.
Proof.
  intros (Hs & He & Hp & Hc & Hb & Hr). repeat split; try assumption.
  - intros H. apply knownBearer_mono. apply Hb. exact H.
  - intros H. apply knownRefresh_mono. apply Hr. exact H.
Qed.

Lemma tracked_start (a0 : CrossbillAPI) : tracked a0 [] a0.
Proof. repeat split; intros _; left; reflexivity. Qed.

Lemma wiredFrom_app url options a0 (p q1 q2 : list Event) :
  wiredFrom url options a0 p q1 ->
  wiredFrom url options a0 (p ++ q1) q2 ->
  wiredFrom url options a0 p (q1 ++ q2).
Proof.
  revert p. induction q1 as [|ev q1 IH]; intros p H1 H2.
  - rewrite app_nil_r in H2. exact H2.
  - destruct H1 as [Hev H1]. split; [exact Hev|].
    apply IH; [exact H1|]. rewrite <- app_assoc. exact H2.
Qed.

Lemma wiredStep_refl url options a0 (p : list Event) (w : World) :
  tracked a0 p (api w) -> wiredStep url options a0 p w w.
Proof.
  intros H. exists []. rewrite !app_nil_r.
  split; [reflexivity|]. split; [exact I | exact H].
Qed.

Lemma wiredStep_after url options a0 (p q1 : list Event) (w w1 w2 : World) :
  trace w1 = (trace w ++ q1)%list ->
  wiredFrom url options a0 p q1 ->
  wiredStep url options a0 (p ++ q1) w1 w2 ->
  wiredStep url options a0 p w w2.
Proof.
  intros T1 W1 (q2 & T2 & W2 & K2).
  exists (q1 ++ q2)%list. split; [rewrite T2, T1; symmetry; apply app_assoc|].
  split; [apply wiredFrom_app; assumption|].
  rewrite app_assoc. exact K2.
Qed.

(** One event, after which the instance is [a']. *)
Lemma wiredStep_event url options a0 (p : list Event) (w w' : World) (ev : Event) :
  trace w' = (trace w ++ [ev])%list ->
  wireEvent url options a0 p ev ->
  tracked a0 (p ++ [ev]) (api w') ->
  wiredStep url options a0 p w w'.
Proof.
  intros T Hev K. exists [ev]. split; [exact T|]. split; [|exact K].
  split; [exact Hev | exact I].
Qed.

Lemma tracked_cleared a0 (p : list Event) (a : CrossbillAPI) :
  tracked a0 p a -> tracked a0 p (cleared a).
Proof.
  intros (Hs & He & Hp & Hc & Hb & _). repeat split; try assumption.
  intros H. discriminate H.
Qed.

Lemma tracked_no_bearer a0 (p : list Event) (a : CrossbillAPI) :
  tracked a0 p a -> tracked a0 p (with_bearerToken "" a).
Proof.
  intros (Hs & He & Hp & Hc & _ & Hr). repeat split; try assumption.
  intros H. discriminate H.
Qed.

Lemma tracked_applied a0 (p : list Event) (a : CrossbillAPI) (d : LoginResponse) (t : Z) :
  delivered p d -> tracked a0 p a -> tracked a0 p (applied d t a).
Proof.
  intros Hd (Hs & He & Hp & Hc & _ & _). repeat split; try assumption.
  - intros _. right. exists d. split; [exact Hd | reflexivity].
  - intros _. right. exists d. split; [exact Hd | reflexivity].
Qed.

Lemma applySession_wired url options a0 (p : list Event) (d : LoginResponse) (w : World) :
  delivered p d -> tracked a0 p (api w) ->
  wiredStep url options a0 p w (snd (applySession d w)).
Proof.
  intros Hd K. rewrite applySession_run.
  destruct (onTokenUpdate (api w)) as [cb|]; cbv zeta; cbn [snd].
  - apply (wiredStep_event url options a0 p w _
             (EvNotify (access_token d) (refresh_token d)
                (clock w + expires_in d * 1000)
                (cb (access_token d) (refresh_token d) (clock w + expires_in d * 1000))));
      [reflexivity | exists d; repeat split; exact Hd |].
    cbn [api]. apply tracked_mono. apply tracked_applied; assumption.
  - exists []. cbn [trace api withApi]. rewrite !app_nil_r.
    split; [reflexivity|]. split; [exact I|].
    apply tracked_applied; assumption.
Qed.

Lemma refreshAccessToken_wired net url options a0 (p : list Event) (w : World) :
  tracked a0 p (api w) ->
  wiredStep url options a0 p w (snd (refreshAccessToken net w)).
Proof.
  intros K.
  destruct (truthy (refreshToken (api w))) eqn:Ht;
    [|rewrite refreshAccessToken_none by assumption; apply wiredStep_refl; exact K].
  rewrite (refreshAccessToken_run net w Ht). cbv zeta.
  set (x := net (calls w)).
  set (ev := EvFetch AtRefresh (serverHost (api w) +:+ authRefreshPath)
               (refreshInit (api w)) x).
  set (w1 := sent AtRefresh (serverHost (api w) +:+ authRefreshPath)
               (refreshInit (api w)) x w).
  assert (Hev : wireEvent url options a0 p ev).
  { destruct K as (Hs & _ & _ & _ & _ & Hr). cbn [wireEvent ev].
    split; [rewrite Hs; reflexivity|].
    exists (refreshToken (api w)). split; [exact Ht|]. split; [apply Hr; exact Ht|].
    reflexivity. }
  assert (K1 : tracked a0 (p ++ [ev]) (api w1)) by (apply tracked_mono; exact K).
  assert (Hfail : wiredStep url options a0 p w (withApi (cleared (api w1)) w1))
    by (apply (wiredStep_event url options a0 p w _ ev);
        [reflexivity | exact Hev | apply tracked_cleared; exact K1]).
  destruct (outcome x) as [resp|e] eqn:Hx; [|exact Hfail].
  destruct (ok resp) eqn:Hok; [|exact Hfail].
  destruct (json resp) as [d|e] eqn:Hj; [|exact Hfail].
  assert (Hd : delivered (p ++ [ev]) d).
  { exists AtRefresh, (serverHost (api w) +:+ authRefreshPath), (refreshInit (api w)), x, resp.
    split; [apply in_or_app; right; left; reflexivity|].
    split; [discriminate|]. repeat split; assumption. }
  pose proof (applySession_wired url options a0 (p ++ [ev]) d w1 Hd K1) as H2.
  destruct (applySession d w1) as [[[]|e] w2]; cbn [snd] in *.
  - apply (wiredStep_after url options a0 p [ev] w w1 w2);
      [reflexivity | split; [exact Hev | exact I] | exact H2].
  - apply (wiredStep_after url options a0 p [ev] w w1 _);
      [reflexivity | split; [exact Hev | exact I] |].
    destruct H2 as (q2 & T2 & W2 & K2). exists q2.
    split; [exact T2|]. split; [exact W2|]. apply tracked_cleared. exact K2.
Qed.

Lemma login_wired net url options a0 (p : list Event) (w : World) :
  tracked a0 p (api w) ->
  wiredStep url options a0 p w
    (snd (login net (email (api w)) (password (api w)) w)).
Proof.
  intros K. rewrite login_run. cbv zeta.
  set (x := net (calls w)).
  set (ev := EvFetch AtLogin (serverHost (api w) +:+ authLoginPath)
               (loginInit (email (api w)) (password (api w))) x).
  set (w1 := sent AtLogin (serverHost (api w) +:+ authLoginPath)
               (loginInit (email (api w)) (password (api w))) x w).
  assert (Hev : wireEvent url options a0 p ev).
  { destruct K as (Hs & He & Hp & _). cbn [wireEvent ev].
    split; [rewrite Hs; reflexivity|].
    unfold loginInit. rewrite He, Hp. reflexivity. }
  assert (K1 : tracked a0 (p ++ [ev]) (api w1)) by (apply tracked_mono; exact K).
  assert (H1 : wiredStep url options a0 p w w1)
    by (apply (wiredStep_event url options a0 p w _ ev);
        [reflexivity | exact Hev | exact K1]).
  destruct (outcome x) as [resp|e] eqn:Hx; [|exact H1].
  destruct (ok resp) eqn:Hok; [|destruct (text resp); exact H1].
  destruct (json resp) as [d|e] eqn:Hj; [|exact H1].
  assert (Hd : delivered (p ++ [ev]) d).
  { exists AtLogin, (serverHost (api w) +:+ authLoginPath),
      (loginInit (email (api w)) (password (api w))), x, resp.
    split; [apply in_or_app; right; left; reflexivity|].
    split; [discriminate|]. repeat split; assumption. }
  pose proof (applySession_wired url options a0 (p ++ [ev]) d w1 Hd K1) as H2.
  destruct (applySession d w1) as [[[]|e] w2]; cbn [snd] in *;
    (apply (wiredStep_after url options a0 p [ev] w w1 w2);
     [reflexivity | split; [exact Hev | exact I] | exact H2]).
Qed.

Lemma ensureAuthenticated_wired net url options a0 (p : list Event) (w : World) :
  tracked a0 p (api w) ->
  wiredStep url options a0 p w (snd (ensureAuthenticated net w)).
Proof.
  intros K. rewrite ensureAuthenticated_run.
  destruct (isUsable (api w) (clock w)); [apply wiredStep_refl; exact K|].
  pose proof (refreshAccessToken_wired net url options a0 p w K) as H1.
  destruct (refreshAccessToken net w) as [[[]|e] w1]; cbn [snd] in *; try exact H1.
  rewrite loginFallback_run.
  destruct (negb (truthy (email (api w1))) || negb (truthy (password (api w1))));
    [exact H1|].
  destruct H1 as (q1 & T1 & W1 & K1).
  apply (wiredStep_after url options a0 p q1 w w1 _ T1 W1).
  pose proof (login_wired net url options a0 (p ++ q1) w1 K1) as H2.
  destruct (login net (email (api w1)) (password (api w1)) w1) as [[d|e] w2]; exact H2.
Qed.

(** A call to the endpoint made on a tracked instance is an allowed event. *)
Lemma wireEvent_dispatch url options a0 (p : list Event) (a : CrossbillAPI) (x : Exchange) :
  tracked a0 p a ->
  wireEvent url options a0 p
    (EvFetch AtTarget url (withHeaders options (authHeaders a)) x).
Proof.
  intros (_ & _ & _ & _ & Hb & _). cbn [wireEvent withHeaders method body headers].
  repeat split. unfold authHeaders.
  destruct (truthy (bearerToken a)) eqn:Ht.
  - right. exists (bearerToken a). split; [exact Ht|].
    split; [apply Hb; reflexivity | reflexivity].
  - left. f_equal. apply (left_id_L ∅ (∪)).
Qed.

(** X20.  Everything [authenticatedFetch(url, options)] does is one of four
    things.  A POST to [<serverHost>/api/v1/auth/refresh] whose only header
    is the JSON content type and whose body is the single field
    [refresh_token], holding a non-empty refresh token that was stored when
    the call started or delivered by an earlier authentication exchange of
    the call.  A POST to [<serverHost>/api/v1/auth/login] whose only header
    is the form content type and whose body is the configured email as
    [username] and the configured password as [password].  A call to [url]
    with the caller's method and body, whose headers are what the spread
    copies from the caller's, alone or under [Authorization: Bearer] and a
    non-empty access token stored at the start or delivered earlier.  A run
    of the callback on the tokens of a session delivered earlier.  So the
    client puts the password in login requests only, and the refresh token
    in refresh requests only. *)
Theorem secrets_stay_on_auth_endpoints net (url : string) (options : RequestInit)
    (w : World) :
  exists evs,
    trace (snd (authenticatedFetch net url options w)) = (trace w ++ evs)%list /\
    wiredFrom url options (api w) [] evs.
Proof.
  assert (H : wiredStep url options (api w) [] w
                (snd (authenticatedFetch net url options w)));
    [|destruct H as (evs & T & W & _); exists evs; split; assumption].
  rewrite authenticatedFetch_run.
  pose proof (ensureAuthenticated_wired net url options (api w) [] w
                (tracked_start (api w))) as H1.
  destruct (ensureAuthenticated net w) as [[[]|e] w1]; cbn [snd] in *; [|exact H1].
  destruct H1 as (q1 & T1 & W1 & K1). cbn [app] in K1.
  apply (wiredStep_after url options (api w) [] q1 w w1 _ T1 W1). cbn [app].
  cbv zeta.
  set (x1 := net (calls w1)).
  set (ev1 := EvFetch AtTarget url (withHeaders options (authHeaders (api w1))) x1).
  set (w2 := sent AtTarget url (withHeaders options (authHeaders (api w1))) x1 w1).
  assert (Hev1 : wireEvent url options (api w) q1 ev1)
    by (apply wireEvent_dispatch; exact K1).
  assert (K2 : tracked (api w) (q1 ++ [ev1]) (api w2)) by (apply tracked_mono; exact K1).
  assert (H2 : wiredStep url options (api w) q1 w1 w2)
    by (apply (wiredStep_event url options (api w) q1 w1 w2 ev1);
        [reflexivity | exact Hev1 | exact K2]).
  destruct (outcome x1) as [r1|e]; [|exact H2].
  destruct (status r1 =? 401); [|exact H2].
  apply (wiredStep_after url options (api w) q1 [ev1] w1 w2 _);
    [reflexivity | split; [exact Hev1 | exact I] |].
  set (w3 := withApi (with_bearerToken "" (api w2)) w2).
  assert (K3 : tracked (api w) (q1 ++ [ev1]) (api w3))
    by (apply tracked_no_bearer; exact K2).
  pose proof (refreshAccessToken_wired net url options (api w) (q1 ++ [ev1]) w3 K3) as H4.
  change (trace w3) with (trace w2) in H4.
  assert (Hlast : forall (pp : list Event) (w4 : World),
             tracked (api w) pp (api w4) ->
             wiredStep url options (api w) pp w4
               (sent AtTarget url (withHeaders options (authHeaders (api w4)))
                  (net (calls w4)) w4)).
  { intros pp w4 K4.
    apply (wiredStep_event url options (api w) pp w4 _
             (EvFetch AtTarget url (withHeaders options (authHeaders (api w4)))
                (net (calls w4))));
      [reflexivity | apply wireEvent_dispatch; exact K4 | apply tracked_mono; exact K4]. }
  destruct (refreshAccessToken net w3) as [[[]|e] w4]; cbn [snd] in *.
  - destruct H4 as (q4 & T4 & W4 & K4).
    apply (wiredStep_after url options (api w) (q1 ++ [ev1]) q4 w2 w4 _ T4 W4).
    apply Hlast. exact K4.
  - destruct H4 as (q4 & T4 & W4 & K4).
    apply (wiredStep_after url options (api w) (q1 ++ [ev1]) q4 w2 w4 _ T4 W4).
    pose proof (ensureAuthenticated_wired net url options (api w)
                  ((q1 ++ [ev1]) ++ q4) w4 K4) as H5.
    destruct (ensureAuthenticated net w4) as [[[]|e] w5]; cbn [snd] in *; [|exact H5].
    destruct H5 as (q5 & T5 & W5 & K5).
    apply (wiredStep_after url options (api w) ((q1 ++ [ev1]) ++ q4) q5 w4 w5 _ T5 W5).
    apply Hlast. exact K5.
  - exact H4.
Qed.

(** X21.  On an instance configured with [setCredentials(email, password)],
    both non-empty, holding neither a token that passes the check nor a
    refresh token, [ensureAuthenticated] makes exactly one exchange: a login
    whose form carries that email as [username] and that password; it
    ends as that login ends, and no refresh is attempted. *)
Theorem login_with_configured_credentials net (a : CrossbillAPI) (em pw : string)
    (w : World) :
  api w = setCredentials em pw a ->
  truthy em = true -> truthy pw = true ->
  isUsable (api w) (clock w) = false ->
  truthy (refreshToken (api w)) = false ->
  let out := ensureAuthenticated net w in
  snd out = snd (login net em pw w) /\
  fst out = match fst (login net em pw w) with
            | Resolved _ => Resolved tt
            | Rejected e => Rejected e
            end /\
  calls (snd out) = S (calls w) /\
  refreshes (trace (snd out)) = refreshes (trace w) /\
  exists rest,
    trace (snd out) =
      (trace w ++
       [EvFetch AtLogin (serverHost a +:+ authLoginPath)
          {| method := "POST";
             headers := HeadersRecord
                          {[ "Content-Type" := "application/x-www-form-urlencoded" ]};
             body := FormBody [("username", em); ("password", pw)] |}
          (net (calls w))] ++ rest)%list.
Proof.
  intros Ha Hem Hpw Hu Hrt out. subst out.
  rewrite ensureAuthenticated_run, Hu, refreshAccessToken_none by assumption.
  rewrite loginFallback_run.
  assert (He : email (api w) = em) by (rewrite Ha; reflexivity).
  assert (Hp : password (api w) = pw) by (rewrite Ha; reflexivity).
  assert (Hs : serverHost (api w) = serverHost a) by (rewrite Ha; reflexivity).
  rewrite He, Hp, Hem, Hpw. cbn [negb orb].
  pose proof (calls_login net em pw w) as Hc.
  destruct (login_trace net em pw w) as (rest & Ht & Hl & Hr).
  rewrite Hs in Ht.
  destruct (login net em pw w) as [[d|e] w1]; cbn [fst snd] in *;
    (split; [reflexivity|]); (split; [reflexivity|]); (split; [exact Hc|]);
    (split; [rewrite Ht, !refreshes_app, Hr; unfold refreshes at 2; simpl; lia|]);
    exists rest; exact Ht.
Qed.

Lemma login_with_configured_credentials_witness :
  let net := fun _ : nat => Scenario.success Scenario.hourSession in
  let w := Scenario.start (setCredentials "reader@example.org" "secret" Scenario.blank) 0 in
  fst (ensureAuthenticated net w) = Resolved tt /\
  calls (snd (ensureAuthenticated net w)) = 1%nat /\
  refreshes (trace (snd (ensureAuthenticated net w))) = 0%nat.
Proof.
  cbv zeta.
  destruct (login_with_configured_credentials
              (fun _ => Scenario.success Scenario.hourSession) Scenario.blank
              "reader@example.org" "secret"
              (Scenario.start
                 (setCredentials "reader@example.org" "secret" Scenario.blank) 0)
              eq_refl eq_refl eq_refl eq_refl eq_refl)
    as (_ & H2 & H3 & H4 & _).
  repeat split; assumption.
Defined.
